(** * Session registry of the Haystack chatbot (src/session_manager.py)

    A shallow embedding of [UserSession], [SessionManager] and
    [ThreadSafeContextManager], followed by the properties of the
    registry: sliding expiration, turn appends, supersession, the sweep,
    the identity-index invariant, closing, and the request coordinator.

    Modelling conventions.
    - A [datetime] is the number of microseconds since the epoch (the
      resolution of Python's [datetime]); a [timedelta] is a number of
      microseconds, so [timedelta(minutes=m)] is [m * 60000000].
    - [datetime.now()] and [uuid.uuid4()] are the two sources of
      nondeterminism.  They are oracles: the k-th call of [datetime.now()]
      returns [datetime_now o k], the k-th call of [uuid.uuid4()] returns
      [uuid_stream o k]; the world counts the calls made so far.  Nothing
      is assumed about either oracle unless a theorem says so.
    - Session objects live in [sessions]; a reference to a session is the
      key under which it is stored, and an in-place mutation of the object
      rewrites that entry.
    - [self.sessions] is iterated by the sweep, so it is an
      insertion-ordered association list, as a Python [dict] is;
      [user_to_session], [user_context], [metadata] and the lock table are
      only looked up and updated, and are [gmap]s.
    - [self._lock] is a re-entrant lock held for the whole of each method:
      every method is one atomic transition of the world. *)

From stdpp Require Import gmap strings list fin_maps pretty.
From Stdlib Require Import ZArith PrimFloat.

(** ** Python values stored in [Dict[str, Any]] *)

Inductive PyVal :=
  | PyNone
  | PyBool (b : bool)
  | PyInt (z : Z)
  | PyStr (s : string).

Abbreviation PyMap := (gmap string PyVal).

(** Exceptions: the class name and the message. *)
Inductive PyExn := Exn (cls : string) (msg : string).

Definition RuntimeError (msg : string) : PyExn := Exn "RuntimeError" msg.

(** ** Insertion-ordered dictionaries *)

Section PyDict.
Context {V : Type}.

(** [d.get(k)] *)
Fixpoint dict_get (k : string) (d : list (string * V)) : option V :=
  match d with
  | [] => None
  | (k', v) :: d' => if decide (k = k') then Some v else dict_get k d'
  end.

(** [d[k] = v]: an existing key keeps its position, a new one goes last. *)
Fixpoint dict_set (k : string) (v : V) (d : list (string * V)) : list (string * V) :=
  match d with
  | [] => [(k, v)]
  | (k', v') :: d' =>
      if decide (k = k') then (k, v) :: d' else (k', v') :: dict_set k v d'
  end.

(** [del d[k]] / the removal done by [d.pop(k, None)]. *)
Fixpoint dict_del (k : string) (d : list (string * V)) : list (string * V) :=
  match d with
  | [] => []
  | (k', v') :: d' =>
      if decide (k = k') then dict_del k d' else (k', v') :: dict_del k d'
  end.

Definition dict_keys (d : list (string * V)) : list string := d.*1.
Definition dict_values (d : list (string * V)) : list V := d.*2.
End PyDict.

(** [l[-n:]] for a Python integer [n]. *)
Definition slice_last {A} (n : Z) (l : list A) : list A :=
  if (0 <? n)%Z then drop (length l - Z.to_nat n) l
  else drop (Z.to_nat (- n)) l.

(** ** Data model *)

Record ConversationTurn := mkTurn {
  timestamp : Z;
  user_message : string;
  bot_response : string;
  sql_query : option string;
  confidence : float;
  metadata : gmap string PyVal
}.

Record UserSession := mkSession {
  session_id : string;
  user_id : string;
  created_at : Z;
  last_activity : Z;
  conversation_history : list ConversationTurn;
  user_context : gmap string PyVal;
  is_active : bool
}.

Definition set_last_activity (t : Z) (s : UserSession) : UserSession :=
  mkSession (session_id s) (user_id s) (created_at s) t
            (conversation_history s) (user_context s) (is_active s).

Definition set_conversation_history (h : list ConversationTurn) (s : UserSession) : UserSession :=
  mkSession (session_id s) (user_id s) (created_at s) (last_activity s)
            h (user_context s) (is_active s).

Definition set_user_context (c : gmap string PyVal) (s : UserSession) : UserSession :=
  mkSession (session_id s) (user_id s) (created_at s) (last_activity s)
            (conversation_history s) c (is_active s).

Definition set_is_active (b : bool) (s : UserSession) : UserSession :=
  mkSession (session_id s) (user_id s) (created_at s) (last_activity s)
            (conversation_history s) (user_context s) b.

(** [timedelta(minutes=m)] in microseconds. *)
Definition timedelta_minutes (m : Z) : Z := (m * 60000000)%Z.

(** The fields of [SessionManager] that the methods read and write.  The
    lock, the cleanup task handle and the running flag carry no session
    data. *)
Record SessionManager := mkManager {
  sessions : list (string * UserSession);
  user_to_session : gmap string string;
  session_timeout_minutes : Z;
  cleanup_interval_minutes : Z
}.

Definition set_sessions (d : list (string * UserSession)) (m : SessionManager) : SessionManager :=
  mkManager d (user_to_session m) (session_timeout_minutes m) (cleanup_interval_minutes m).

Definition set_user_to_session (i : gmap string string) (m : SessionManager) : SessionManager :=
  mkManager (sessions m) i (session_timeout_minutes m) (cleanup_interval_minutes m).

(** [SessionManager.__init__] *)
Definition SessionManager_init (timeout interval : Z) : SessionManager :=
  mkManager [] ∅ timeout interval.

(** The world: the session manager, the gate table of the
    [ThreadSafeContextManager] ([true] = the [asyncio.Lock] is held), and
    the number of clock readings and uuid draws made so far. *)
Record World := mkWorld {
  session_manager : SessionManager;
  user_locks : gmap string bool;
  ticks : nat;
  draws : nat
}.

Definition set_manager (m : SessionManager) (w : World) : World :=
  mkWorld m (user_locks w) (ticks w) (draws w).

Definition set_user_locks (l : gmap string bool) (w : World) : World :=
  mkWorld (session_manager w) l (ticks w) (draws w).

Definition World_init (timeout interval : Z) : World :=
  mkWorld (SessionManager_init timeout interval) ∅ 0 0.

(** ** The monad of the methods: read the oracles, thread the world *)

Record Oracle := mkOracle {
  datetime_now : nat → Z;
  uuid_stream : nat → string
}.

Definition M (A : Type) : Type := Oracle → World → A * World.

Definition ret {A} (a : A) : M A := λ _ w, (a, w).

Definition bind {A B} (c : M A) (k : A → M B) : M B :=
  λ o w, let (a, w') := c o w in k a o w'.

Notation "'let!' x ':=' c 'in' k" := (bind c (λ x, k))
  (at level 10, x name, c at level 100, k at level 200).
Notation "c ';;' k" := (bind c (λ _, k))
  (at level 100, k at level 200, right associativity).

Definition get_manager : M SessionManager := λ _ w, (session_manager w, w).
Definition put_manager (m : SessionManager) : M unit := λ _ w, (tt, set_manager m w).

(** [datetime.now()] *)
Definition now : M Z :=
  λ o w, (datetime_now o (ticks w),
          mkWorld (session_manager w) (user_locks w) (S (ticks w)) (draws w)).

(** [str(uuid.uuid4())] *)
Definition uuid4 : M string :=
  λ o w, (uuid_stream o (draws w),
          mkWorld (session_manager w) (user_locks w) (ticks w) (S (draws w))).

(** ** UserSession *)

(** [UserSession.is_expired] *)
Definition is_expired (s : UserSession) (timeout_minutes : Z) : M bool :=
  let! t := now in
  ret (t - last_activity s >? timedelta_minutes timeout_minutes)%Z.

(** [UserSession.add_turn]: the session object after the call. *)
Definition add_turn (s : UserSession) (um br : string) (sq : option string)
    (conf : float) (md : option PyMap) : M UserSession :=
  let! ts := now in
  let turn := mkTurn ts um br sq conf (default ∅ md) in
  let s1 := set_conversation_history (conversation_history s ++ [turn]) s in
  let! t := now in
  ret (set_last_activity t s1).

(** [UserSession.get_recent_context]: role/content pairs. *)
Definition get_recent_context (s : UserSession) (max_turns : Z) : list (string * string) :=
  let recent_turns :=
    match conversation_history s with
    | [] => []
    | h => slice_last max_turns h
    end in
  flat_map (λ turn, [("user", user_message turn); ("assistant", bot_response turn)])
           recent_turns.

(** ** SessionManager *)

(** [SessionManager.create_session] *)
Definition create_session (uid : string) (ctx : option PyMap) : M string :=
  let! m := get_manager in
  let closed :=
    match user_to_session m !! uid with
    | Some old_session_id =>
        match dict_get old_session_id (sessions m) with
        | Some old => dict_set old_session_id (set_is_active false old) (sessions m)
        | None => sessions m
        end
    | None => sessions m
    end in
  let! sid := uuid4 in
  let! created := now in
  let! active := now in
  let session := mkSession sid uid created active [] (default ∅ ctx) true in
  put_manager (set_user_to_session (<[uid := sid]> (user_to_session m))
                 (set_sessions (dict_set sid session closed) m)) ;;
  ret sid.

(** [SessionManager.get_session] *)
Definition get_session (sid : string) : M (option UserSession) :=
  let! m := get_manager in
  match dict_get sid (sessions m) with
  | Some session =>
      let! expired := is_expired session (session_timeout_minutes m) in
      if expired then ret None
      else
        let! t := now in
        let session' := set_last_activity t session in
        put_manager (set_sessions (dict_set sid session' (sessions m)) m) ;;
        ret (Some session')
  | None => ret None
  end.

(** [SessionManager.get_user_session]; [if session_id:] is false for the
    empty string. *)
Definition get_user_session (uid : string) : M (option UserSession) :=
  let! m := get_manager in
  match user_to_session m !! uid with
  | Some sid => if decide (sid = "") then ret None else get_session sid
  | None => ret None
  end.

(** [SessionManager.add_conversation_turn] *)
Definition add_conversation_turn (sid um br : string) (sq : option string)
    (conf : float) (md : option PyMap) : M bool :=
  let! found := get_session sid in
  match found with
  | Some session =>
      let! session' := add_turn session um br sq conf md in
      let! m := get_manager in
      put_manager (set_sessions (dict_set sid session' (sessions m)) m) ;;
      ret true
  | None => ret false
  end.

(** [SessionManager.update_user_context]; [dict.update] lets the new
    entries win. *)
Definition update_user_context (sid : string) (context_updates : PyMap) : M bool :=
  let! found := get_session sid in
  match found with
  | Some session =>
      let s1 := set_user_context (context_updates ∪ user_context session) session in
      let! t := now in
      let! m := get_manager in
      put_manager (set_sessions (dict_set sid (set_last_activity t s1) (sessions m)) m) ;;
      ret true
  | None => ret false
  end.

(** [SessionManager.get_conversation_history] *)
Definition get_conversation_history (sid : string) (max_turns : Z) : M (list ConversationTurn) :=
  let! found := get_session sid in
  match found with
  | Some session =>
      ret (match conversation_history session with
           | [] => []
           | h => slice_last max_turns h
           end)
  | None => ret []
  end.

(** [SessionManager.close_session] *)
Definition close_session (sid : string) : M bool :=
  let! m := get_manager in
  match dict_get sid (sessions m) with
  | Some session =>
      let m1 := set_sessions (dict_set sid (set_is_active false session) (sessions m)) m in
      let m2 :=
        match user_to_session m1 !! user_id session with
        | Some cur =>
            if decide (cur = sid)
            then set_user_to_session (delete (user_id session) (user_to_session m1)) m1
            else m1
        | None => m1
        end in
      put_manager m2 ;;
      ret true
  | None => ret false
  end.

(** The dictionary returned by [get_session_stats]. *)
Record SessionStats := mkStats {
  active_sessions : nat;
  total_sessions : nat;
  total_conversation_turns : nat;
  unique_users : nat
}.

(** [SessionManager.get_session_stats] *)
Definition get_session_stats : M SessionStats :=
  let! m := get_manager in
  let vs := dict_values (sessions m) in
  ret (mkStats
         (length (filter (λ s, is_active s = true) vs))
         (length (sessions m))
         (sum_list (map (λ s, length (conversation_history s)) vs))
         (size (list_to_set (map user_id vs) : gset string))).

(** [SessionManager._cleanup_expired_sessions].  The first loop reads the
    clock once per session, in the order of the dictionary. *)
Fixpoint collect_expired (items : list (string * UserSession)) (timeout : Z)
    : M (list string) :=
  match items with
  | [] => ret []
  | (sid, session) :: rest =>
      let! expired := is_expired session timeout in
      let! more := collect_expired rest timeout in
      ret (if expired || negb (is_active session) then sid :: more else more)
  end.

(** One iteration of the second loop. *)
Definition remove_session (m : SessionManager) (sid : string) : SessionManager :=
  match dict_get sid (sessions m) with
  | Some session =>
      let m1 := set_sessions (dict_del sid (sessions m)) m in
      match user_to_session m1 !! user_id session with
      | Some cur =>
          if decide (cur = sid)
          then set_user_to_session (delete (user_id session) (user_to_session m1)) m1
          else m1
      | None => m1
      end
  | None => m
  end.

Definition _cleanup_expired_sessions : M unit :=
  let! m := get_manager in
  let! expired_sessions := collect_expired (sessions m) (session_timeout_minutes m) in
  put_manager (foldl remove_session m expired_sessions).

(** ** ThreadSafeContextManager *)

(** The outcome of awaiting a callback, and of a call that may have to
    wait at a gate ([Suspended]: the gate is held, the caller is parked and
    has done nothing yet). *)
Inductive result (R : Type) :=
  | Return (r : R)
  | Raise (e : PyExn).
Arguments Return {R} r.
Arguments Raise {R} e.

Inductive completion (R : Type) :=
  | Completed (r : result R)
  | Suspended.
Arguments Completed {R} r.
Arguments Suspended {R}.

(** [ThreadSafeContextManager.get_user_lock]: a lock is identified by the
    key of the table under which it was created. *)
Definition get_user_lock (uid : string) : M string :=
  λ _ w,
    match user_locks w !! uid with
    | Some _ => (uid, w)
    | None => (uid, set_user_locks (<[uid := false]> (user_locks w)) w)
    end.

(** [asyncio.Lock.locked], and the two halves of [async with lock]. *)
Definition lock_locked (l : string) : M bool :=
  λ _ w, (default false (user_locks w !! l), w).

Definition lock_acquire (l : string) : M unit :=
  λ _ w, (tt, set_user_locks (<[l := true]> (user_locks w)) w).

Definition lock_release (l : string) : M unit :=
  λ _ w, (tt, set_user_locks (<[l := false]> (user_locks w)) w).

(** The block "Get or create session" of [process_user_request]. *)
Definition get_or_create_session (uid : string) (user_context_kw : option PyMap)
    : M (option UserSession) :=
  let! session := get_user_session uid in
  match session with
  | Some s => ret (Some s)
  | None =>
      let! sid := create_session uid user_context_kw in
      get_session sid
  end.

(** [ThreadSafeContextManager.process_user_request].  Of [**kwargs] only
    [user_context] is ever passed (main.py); [user_context_kw] is
    [kwargs.get('user_context')].  The callback receives the session, the
    message and the keyword arguments, and runs in the world. *)
Definition process_user_request {R} (uid um : string)
    (processor_func : UserSession → string → option PyMap → M (result R))
    (user_context_kw : option PyMap) : M (completion R) :=
  let! user_lock := get_user_lock uid in
  let! held := lock_locked user_lock in
  if held then ret Suspended
  else
    lock_acquire user_lock ;;
    let! session := get_or_create_session uid user_context_kw in
    let! r :=
      match session with
      | None =>
          ret (Raise (RuntimeError
                 ("Could not create or retrieve session for user " +:+ uid)))
      | Some s => processor_func s um user_context_kw
      end in
    lock_release user_lock ;;
    ret (Completed r).

(** ** The callback of main.py *)

Record QueryContext := mkQueryContext {
  qc_user_id : string;
  qc_session_id : string;
  qc_user_query : string;
  qc_conversation_history : list (string * string);
  qc_user_profile : option PyMap
}.

Record ProcessedResponse := mkResponse {
  response_text : string;
  resp_sql_query : option string;
  resp_data : option (list PyMap);
  resp_confidence : float;
  resp_session_id : string;
  requires_followup : bool
}.

(** The three awaits of the callback.  Each collaborator catches
    [Exception] itself (vector_store.py, haystack_pipeline.py), so what
    can still surface at an await is a [BaseException], in particular the
    [CancelledError] of a cancelled task.  None of them holds a reference
    to the session manager. *)
Record Collaborators := mkCollaborators {
  get_contextual_information : string → list (string * string) → result string;
  process_query : QueryContext → result ProcessedResponse;
  add_conversation_context :
    string → string → string → option string → result unit
}.

(** [query_processor] of [TotaraLMSChatbot.process_user_query].
    [user_profile=session.user_context] aliases the session's dictionary:
    when it is non-empty, [user_profile or {}] is that same dictionary and
    the assignment of ['contextual_info'] writes into the session object,
    that is, into the entry stored under its id.  The callback reads the
    session it was handed; in a run without interleaving that is the
    stored one.  The float literal is the binary64 value of Python's
    [0.7]. *)
Definition query_processor (ext : Collaborators) (uid : string)
    (session : UserSession) (um : string) (_ : option PyMap)
    : M (result ProcessedResponse) :=
  match get_contextual_information ext um (get_recent_context session 5) with
  | Raise e => ret (Raise e)
  | Return contextual_info =>
      let history := get_recent_context session 5 in
      let! profile :=
        if decide (contextual_info = "") then ret (user_context session)
        else if decide (user_context session = ∅)
        then ret (<["contextual_info" := PyStr contextual_info]> ∅)
        else
          let profile :=
            <["contextual_info" := PyStr contextual_info]> (user_context session) in
          let! m := get_manager in
          match dict_get (session_id session) (sessions m) with
          | Some cur =>
              put_manager (set_sessions
                (dict_set (session_id session) (set_user_context profile cur)
                   (sessions m)) m) ;;
              ret profile
          | None => ret profile
          end in
      let query_context :=
        mkQueryContext uid (session_id session) um history (Some profile) in
      match process_query ext query_context with
      | Raise e => ret (Raise e)
      | Return response =>
          let! _ := add_conversation_turn (session_id session) um
                      (response_text response) (resp_sql_query response)
                      (resp_confidence response)
                      (Some {[ "requires_followup" := PyBool (requires_followup response) ]}) in
          if PrimFloat.ltb 0x1.6666666666666p-1 (resp_confidence response)
          then
            match add_conversation_context ext (session_id session) um
                    (response_text response) (resp_sql_query response) with
            | Raise e => ret (Raise e)
            | Return _ => ret (Return response)
            end
          else ret (Return response)
      end
  end.

(** ** Sequences of registry operations *)

Inductive RegistryOp :=
  | OpCreateSession (uid : string) (ctx : option PyMap)
  | OpGetSession (sid : string)
  | OpGetUserSession (uid : string)
  | OpAddConversationTurn (sid um br : string) (sq : option string)
      (conf : float) (md : option PyMap)
  | OpUpdateUserContext (sid : string) (updates : PyMap)
  | OpGetConversationHistory (sid : string) (max_turns : Z)
  | OpCloseSession (sid : string)
  | OpGetSessionStats
  | OpSweep.

Definition run_op (op : RegistryOp) : M unit :=
  match op with
  | OpCreateSession uid ctx => create_session uid ctx ;; ret tt
  | OpGetSession sid => get_session sid ;; ret tt
  | OpGetUserSession uid => get_user_session uid ;; ret tt
  | OpAddConversationTurn sid um br sq conf md =>
      add_conversation_turn sid um br sq conf md ;; ret tt
  | OpUpdateUserContext sid updates => update_user_context sid updates ;; ret tt
  | OpGetConversationHistory sid n => get_conversation_history sid n ;; ret tt
  | OpCloseSession sid => close_session sid ;; ret tt
  | OpGetSessionStats => get_session_stats ;; ret tt
  | OpSweep => _cleanup_expired_sessions
  end.

Fixpoint run_ops (ops : list RegistryOp) : M unit :=
  match ops with
  | [] => ret tt
  | op :: rest => run_op op ;; run_ops rest
  end.

(** ** Vocabulary of the statements *)

(** "Not expired" at clock reading [t]: [t - last_activity <= TTL]. *)
Definition fresh_at (t : Z) (s : UserSession) (m : SessionManager) : Prop :=
  (t - last_activity s ≤ timedelta_minutes (session_timeout_minutes m))%Z.

#[global] Instance fresh_at_dec t s m : Decision (fresh_at t s m).
Proof. unfold fresh_at. apply _. Defined.

(** The world after [n] more clock readings. *)
Definition after_readings (n : nat) (w : World) : World :=
  mkWorld (session_manager w) (user_locks w) (n + ticks w) (draws w).

(** The session stored under [sid], if any. *)
Definition stored (sid : string) (w : World) : option UserSession :=
  dict_get sid (sessions (session_manager w)).

(** The session under [sid] after a successful [add_conversation_turn]
    that started with [s] stored and [k] clock readings made: the lookup
    reads the clock at [k] and [k+1], [add_turn] at [k+2] and [k+3]. *)
Definition with_turn (o : Oracle) (k : nat) (um br : string) (sq : option string)
    (conf : float) (md : option PyMap) (s : UserSession) : UserSession :=
  mkSession (session_id s) (user_id s) (created_at s)
    (datetime_now o (3 + k))
    (conversation_history s
       ++ [mkTurn (datetime_now o (2 + k)) um br sq conf (default ∅ md)])
    (user_context s) (is_active s).

(** The keys the first loop of the sweep collects from [items] when the
    clock has been read [k] times: item number [i] is examined at reading
    [k + i]. *)
Fixpoint swept_keys (o : Oracle) (k : nat) (timeout : Z)
    (items : list (string * UserSession)) : list string :=
  match items with
  | [] => []
  | (sid, session) :: rest =>
      if (datetime_now o k - last_activity session >? timedelta_minutes timeout)%Z
         || negb (is_active session)
      then sid :: swept_keys o (S k) timeout rest
      else swept_keys o (S k) timeout rest
  end.

(** An index entry that points at a stored session names its owner. *)
Definition index_owned (m : SessionManager) : Prop :=
  ∀ u sid s, user_to_session m !! u = Some sid →
    dict_get sid (sessions m) = Some s → user_id s = u.

(** The registry invariant of the spec: every sessionId in the identity
    index is a key of the authoritative store, and its session is active. *)
Definition index_valid (m : SessionManager) : Prop :=
  ∀ u sid, user_to_session m !! u = Some sid →
    ∃ s, dict_get sid (sessions m) = Some s ∧ is_active s = true.

(** The invariant the operations maintain, from which [index_valid]
    follows: keys are distinct, each session is stored under its own id,
    every key is one of the ids drawn so far, and every index entry points
    at an active session of that user. *)
Record registry_inv (o : Oracle) (m : SessionManager) (drawn : nat) : Prop :=
  mkRegistryInv {
    inv_nodup : NoDup (dict_keys (sessions m));
    inv_ids : ∀ k s, dict_get k (sessions m) = Some s → session_id s = k;
    inv_drawn : ∀ k s, dict_get k (sessions m) = Some s →
                  ∃ n, n < drawn ∧ k = uuid_stream o n;
    inv_index : ∀ u sid, user_to_session m !! u = Some sid →
                  ∃ s, dict_get sid (sessions m) = Some s
                     ∧ is_active s = true ∧ user_id s = u
  }.

Definition world_inv (o : Oracle) (w : World) : Prop :=
  registry_inv o (session_manager w) (draws w).

(** The store after the first step of [create_session]: the session the
    index has for [uid], if it is stored, is deactivated. *)
Definition superseded (uid : string) (m : SessionManager) : list (string * UserSession) :=
  match user_to_session m !! uid with
  | Some old_session_id =>
      match dict_get old_session_id (sessions m) with
      | Some old => dict_set old_session_id (set_is_active false old) (sessions m)
      | None => sessions m
      end
  | None => sessions m
  end.

(** The session object [create_session] builds in world [w]. *)
Definition new_session (o : Oracle) (w : World) (uid : string) (ctx : option PyMap)
    : UserSession :=
  mkSession (uuid_stream o (draws w)) uid
    (datetime_now o (ticks w)) (datetime_now o (S (ticks w)))
    [] (default ∅ ctx) true.

(** The world with the gate of [uid] held, and released. *)
Definition gate_held (uid : string) (w : World) : World :=
  set_user_locks (<[uid := true]> (user_locks w)) w.

Definition gate_released (uid : string) (w : World) : World :=
  set_user_locks (<[uid := false]> (user_locks w)) w.

(** Every session is stored under its own id. *)
Definition ids_consistent (w : World) : Prop :=
  ∀ k s, stored k w = Some s → session_id s = k.

(** The turn [query_processor] records for a response, stamped [t]. *)
Definition response_turn (t : Z) (um : string) (resp : ProcessedResponse)
    : ConversationTurn :=
  mkTurn t um (response_text resp) (resp_sql_query resp) (resp_confidence resp)
    {[ "requires_followup" := PyBool (requires_followup resp) ]}.

(** ** Concrete inputs *)

(** A clock that advances one minute per reading, and ids "session-0",
    "session-1", ... *)
Definition example_oracle : Oracle :=
  mkOracle (λ k, Z.of_nat k * 60000000)%Z (λ k, "session-" +:+ pretty k).

(** A fresh registry with the default settings of [SessionManager]. *)
Definition example_world : World := World_init 60 10.

(** alice's session, created and then closed. *)
Definition closed_world : World :=
  snd ((create_session "alice" None ;; close_session "session-0")
         example_oracle example_world).

(** alice's session, created and not yet used. *)
Definition opened_world : World :=
  snd (create_session "alice" None example_oracle example_world).

(** alice and bob open sessions, alice opens a second one, bob's is
    closed, and the sweep runs. *)
Definition example_ops : list RegistryOp :=
  [ OpCreateSession "alice" None;
    OpCreateSession "bob" None;
    OpAddConversationTurn "session-0" "hi" "hello" None 0 None;
    OpCreateSession "alice" None;
    OpCloseSession "session-1";
    OpSweep ].

(** alice's first session superseded by her second, bob's still open. *)
Definition busy_world : World :=
  snd (run_ops [ OpCreateSession "alice" None;
                 OpCreateSession "bob" None;
                 OpCreateSession "alice" None ] example_oracle example_world).

(** A callback that answers without touching the registry. *)
Definition echo_processor (_ : UserSession) (um : string) (_ : option PyMap)
    : M (result string) :=
  ret (Return ("echo: " +:+ um)).

(** Collaborators that answer at once with confidence 0.9 (its binary64
    value); in [cancelling_collaborators] the task is cancelled while it
    awaits [add_conversation_context]. *)
Definition prompt_collaborators : Collaborators :=
  mkCollaborators
    (λ _ _, Return "")
    (λ qc, Return (mkResponse "hello" None None 0x1.ccccccccccccdp-1
                     (qc_session_id qc) false))
    (λ _ _ _ _, Return tt).

Definition cancelling_collaborators : Collaborators :=
  mkCollaborators
    (get_contextual_information prompt_collaborators)
    (process_query prompt_collaborators)
    (λ _ _ _ _, Raise (Exn "CancelledError" "")).

(** A callback that fails before it has touched the registry. *)
Definition failing_processor (_ : UserSession) (_ : string) (_ : option PyMap)
    : M (result string) :=
  ret (Raise (Exn "ValueError" "boom")).

(** alice's session as "get or create" resolves it in a new registry:
    created at readings 0 and 1, looked up at readings 2 and 3. *)
Definition resolved_session : UserSession :=
  mkSession "session-0" "alice" 0 180000000 [] ∅ true.

Definition resolved_world : World :=
  snd (get_or_create_session "alice" None example_oracle
         (gate_held "alice" example_world)).

(** ** Further operations *)

(** [ThreadSafeContextManager.cleanup_user_locks]: the comprehension
    keeps the entries of the gate table whose user has an active session
    among [sessions.values()]. *)
Definition cleanup_user_locks : M unit :=
  λ _ w,
    let active_users : gset string :=
      list_to_set
        (user_id <$> filter (λ s, is_active s = true)
                       (dict_values (sessions (session_manager w)))) in
    (tt, set_user_locks (filter (λ kv, kv.1 ∈ active_users) (user_locks w)) w).

(** [TotaraLMSChatbot.close_user_session] (main.py) *)
Definition close_user_session (uid : string) : M bool :=
  let! session := get_user_session uid in
  match session with
  | Some s => close_session (session_id s)
  | None => ret false
  end.



(** Python's class hierarchy is open: the program and its libraries
    define exception classes under [Exception], or under [BaseException]
    only (as [asyncio.CancelledError], [KeyboardInterrupt] and
    [BaseExceptionGroup] are).  A [Hierarchy] tells of every class whether
    it derives from [Exception].  The functions with an [except Exception]
    clause take the hierarchy as an argument, and what is proved of them is
    proved for every hierarchy. *)
Definition Hierarchy : Type := string → bool.

(** [isinstance(e, Exception)], the test of [except Exception]. *)
Definition is_Exception (h : Hierarchy) (e : PyExn) : bool :=
  match e with
  | Exn cls _ => h cls
  end.

(** [str(e)] *)
Definition exn_str (e : PyExn) : string :=
  match e with Exn _ msg => msg end.

(** The dictionary [process_user_query] returns; [reply_error] is the
    key ["error"], present only in the dictionary of the [except] branch. *)
Record QueryReply := mkQueryReply {
  reply_response : string;
  reply_sql_query : option string;
  reply_confidence : float;
  reply_session_id : option string;
  reply_requires_followup : bool;
  reply_data : option (list PyMap);
  reply_error : option string
}.

(** The dictionary of the [except] branch; the confidence is the
    binary64 value of [0.1]. *)
Definition apology (e : PyExn) : QueryReply :=
  mkQueryReply
    "I apologize, but I encountered an error while processing your request. Please try again."
    None 0x1.999999999999ap-4 None false None (Some (exn_str e)).

(** [TotaraLMSChatbot.process_user_query] (main.py).  [is_initialized]
    is the flag of the chatbot when the call starts and [initialize] its
    method of that name, awaited outside the [try]. *)
Definition process_user_query (h : Hierarchy) (ext : Collaborators)
    (is_initialized : bool) (initialize : M (result unit)) (uid user_query : string)
    (user_context : option PyMap) : M (completion QueryReply) :=
  let! started := if is_initialized then ret (Return tt) else initialize in
  match started with
  | Raise e => ret (Completed (Raise e))
  | Return _ =>
      let! outcome :=
        process_user_request uid user_query (query_processor ext uid) user_context in
      match outcome with
      | Suspended => ret Suspended
      | Completed (Return response) =>
          ret (Completed (Return
                 (mkQueryReply (response_text response) (resp_sql_query response)
                    (resp_confidence response) (Some (resp_session_id response))
                    (requires_followup response) (resp_data response) None)))
      | Completed (Raise e) =>
          if is_Exception h e then ret (Completed (Return (apology e)))
          else ret (Completed (Raise e))
      end
  end.

(** ** The query pipeline (database_connector.py, haystack_pipeline.py,
    vector_store.py) *)

(** The text handled here is ASCII text ([isascii]): a Python [str] of
    code points below 128 is the Coq [string] of these characters, and its
    [len] is [String.length].  On such text [str.isspace] holds of the code
    points 9 to 13 and 28 to 32, and [str.upper] maps [a-z] to [A-Z]; the
    methods below are [str.upper], [str.strip] and [str.startswith] on
    ASCII text.  On other text Python follows the Unicode tables (it strips
    U+00A0 and maps U+017F to [S]), which are not modelled: a statement
    that depends on these methods is made of ASCII text. *)

(** [s.isascii()] *)
Fixpoint isascii (s : string) : bool :=
  match s with
  | EmptyString => true
  | String a s' => (Ascii.nat_of_ascii a <? 128) && isascii s'
  end.

Definition is_space (a : Ascii.ascii) : bool :=
  let n := Ascii.nat_of_ascii a in
  ((9 <=? n) && (n <=? 13)) || ((28 <=? n) && (n <=? 32)).

Definition upper_char (a : Ascii.ascii) : Ascii.ascii :=
  let n := Ascii.nat_of_ascii a in
  if (97 <=? n) && (n <=? 122) then Ascii.ascii_of_nat (n - 32) else a.

Fixpoint str_upper (s : string) : string :=
  match s with
  | EmptyString => EmptyString
  | String a s' => String (upper_char a) (str_upper s')
  end.

Fixpoint str_lstrip (s : string) : string :=
  match s with
  | EmptyString => EmptyString
  | String a s' => if is_space a then str_lstrip s' else s
  end.

Fixpoint str_rstrip (s : string) : string :=
  match s with
  | EmptyString => EmptyString
  | String a s' =>
      match str_rstrip s' with
      | EmptyString => if is_space a then EmptyString else String a EmptyString
      | kept => String a kept
      end
  end.

(** [s.strip()] *)
Definition str_strip (s : string) : string := str_rstrip (str_lstrip s).

(** [s.startswith(p)] *)
Definition startswith (s p : string) : bool := String.prefix p s.

Definition dangerous_keywords : list string :=
  ["DROP"; "DELETE"; "UPDATE"; "INSERT"; "ALTER"; "CREATE"; "TRUNCATE"].

(** [TotaraLMSConnector.validate_sql_query] *)
Definition validate_sql_query (query : string) : bool :=
  let query_upper := str_strip (str_upper query) in
  if existsb (startswith query_upper) dangerous_keywords then false
  else if negb (startswith query_upper "SELECT") then false
  else true.

(** [QueryResult] of database_connector.py *)
Record QueryResult := mkQueryResult {
  qr_success : bool;
  qr_data : list PyMap;
  qr_columns : list string;
  qr_row_count : Z;
  qr_error : option string
}.

#[global] Instance PyVal_eq_dec : EqDecision PyVal.
Proof. solve_decision. Defined.

(** Truth value of a Python value. *)
Definition truthy (v : PyVal) : bool :=
  match v with
  | PyNone => false
  | PyBool b => b
  | PyInt z => negb (z =? 0)%Z
  | PyStr s => negb (String.eqb s "")
  end.

(** What [HaystackPipeline.process_query] awaits: the three calls of the
    LLM brain and the execution of a query by the connector, each of which
    may raise, and the schema text it passes on. *)
Record PipelineParts := mkPipelineParts {
  analyze_intent : QueryContext → result PyMap;
  schema_context : string;
  generate_sql_query : QueryContext → PyMap → string → result (option string);
  execute_query : string → result QueryResult;
  generate_response :
    QueryContext → option string → option QueryResult → result string
}.

(** The binary64 values of the three confidences [0.9], [0.6], [0.1]. *)
Definition confidence_high : float := 0x1.ccccccccccccdp-1.
Definition confidence_medium : float := 0x1.3333333333333p-1.
Definition confidence_low : float := 0x1.999999999999ap-4.

(** The [try] block of [HaystackPipeline.process_query]: its outcome and
    the queries it handed to [execute_query]. *)
Definition pipeline_try (p : PipelineParts) (qc : QueryContext)
    : result ProcessedResponse * list string :=
  match analyze_intent p qc with
  | Raise e => (Raise e, [])
  | Return intent_data =>
      let requires_sql :=
        truthy (default (PyBool false) (intent_data !! "requires_sql")) in
      let respond (sql_query : option string) (query_result : option QueryResult)
          (executed : list string) :=
        match generate_response p qc sql_query query_result with
        | Raise e => (Raise e, executed)
        | Return text =>
            let confidence :=
              if negb requires_sql
                 || match query_result with
                    | Some qr => qr_success qr
                    | None => false
                    end
              then confidence_high else confidence_medium in
            (Return
               (mkResponse text sql_query (qr_data <$> query_result) confidence
                  (qc_session_id qc)
                  (bool_decide (intent_data !! "complexity" = Some (PyStr "complex")))),
             executed)
        end in
      if requires_sql then
        match generate_sql_query p qc intent_data (schema_context p) with
        | Raise e => (Raise e, [])
        | Return sql_query =>
            match sql_query with
            | Some sql =>
                if negb (String.eqb sql "") && validate_sql_query sql then
                  match execute_query p sql with
                  | Raise e => (Raise e, [sql])
                  | Return qr => respond sql_query (Some qr) [sql]
                  end
                else
                  respond sql_query
                    (Some (mkQueryResult false [] [] 0 (Some "Invalid or unsafe query")))
                    []
            | None =>
                respond None
                  (Some (mkQueryResult false [] [] 0 (Some "Invalid or unsafe query")))
                  []
            end
        end
      else respond None None []
  end.

(** [HaystackPipeline.process_query]: the [try] block, with the response
    of the [except Exception] branch. *)
Definition pipeline_process_query (h : Hierarchy) (p : PipelineParts)
    (qc : QueryContext) : result ProcessedResponse * list string :=
  match pipeline_try p qc with
  | (Raise e, executed) =>
      if is_Exception h e
      then (Return
              (mkResponse
                 "I apologize, but I encountered an error while processing your request. Please try again."
                 None None confidence_low (qc_session_id qc) false),
            executed)
      else (Raise e, executed)
  | done => done
  end.

(** [SearchResult] of vector_store.py *)
Record SearchResult := mkSearchResult {
  sr_content : string;
  sr_metadata : PyMap;
  sr_distance : float;
  sr_relevance_score : float
}.

(** The loop of [TotaraKnowledgeBase.get_contextual_information]: the
    lines appended after the header, [current_length] being the length
    used so far.  The float is the binary64 value of [0.3]; [len] is
    [String.length], which is right for ASCII contents. *)
Fixpoint context_lines (results : list SearchResult)
    (current_length max_context_length : Z) : list string :=
  match results with
  | [] => []
  | result :: rest =>
      if PrimFloat.ltb 0x1.3333333333333p-2 (sr_relevance_score result) then
        let context_text := "- " +:+ sr_content result in
        let len := Z.of_nat (String.length context_text) in
        if (current_length + len <=? max_context_length)%Z
        then context_text
               :: context_lines rest (current_length + len) max_context_length
        else []
      else context_lines rest current_length max_context_length
  end.

(** The line feed, and ["\n".join(parts)]. *)
Definition newline : string := String (Ascii.ascii_of_nat 10) EmptyString.

(** [TotaraKnowledgeBase.get_contextual_information]; [search_knowledge]
    is the method of that name, which is asked for three results.  The
    conversation history is not used. *)
Definition kb_get_contextual_information (h : Hierarchy)
    (search_knowledge : string → Z → result (list SearchResult))
    (user_query : string) (conversation_history : list (string * string))
    (max_context_length : Z) : result string :=
  match search_knowledge user_query 3%Z with
  | Raise e => if is_Exception h e then Return "" else Raise e
  | Return [] => Return ""
  | Return search_results =>
      let context_parts :=
        "Relevant Totara LMS context:"
          :: context_lines search_results 0 max_context_length in
      Return (if 1 <? length context_parts
              then String.concat newline context_parts else "")
  end.

(** ** Vocabulary of the further properties *)

(** The turns a window of [max_turns] selects from a log: what
    [history[-max_turns:] if history else []] evaluates to. *)
Definition recent_turns (max_turns : Z) (h : list ConversationTurn)
    : list ConversationTurn :=
  match h with
  | [] => []
  | turns => slice_last max_turns turns
  end.

(** Every active session of the store is the one the index has for its
    user. *)
Definition active_indexed (m : SessionManager) : Prop :=
  ∀ sid s, dict_get sid (sessions m) = Some s → is_active s = true →
    user_to_session m !! user_id s = Some sid.

(** The clock never goes back. *)
Definition monotone_clock (o : Oracle) : Prop :=
  ∀ i j, i ≤ j → (datetime_now o i ≤ datetime_now o j)%Z.

(** The timestamps of a session when the clock has been read [k] times:
    [last_activity] is one of the readings made, it is not before
    [created_at] nor before any turn, and the turns are in the order of
    their timestamps. *)
Definition times_ok (o : Oracle) (k : nat) (created active : Z)
    (h : list ConversationTurn) : Prop :=
  (∃ j, j < k ∧ active = datetime_now o j)
  ∧ (created ≤ active)%Z
  ∧ (∀ i t, h !! i = Some t → (timestamp t ≤ active)%Z)
  ∧ (∀ i j ti tj, i ≤ j → h !! i = Some ti → h !! j = Some tj →
       (timestamp ti ≤ timestamp tj)%Z).

Definition session_times_ok (o : Oracle) (k : nat) (s : UserSession) : Prop :=
  times_ok o k (created_at s) (last_activity s) (conversation_history s).

Definition times_inv (o : Oracle) (w : World) : Prop :=
  ∀ sid s, stored sid w = Some s → session_times_ok o (ticks w) s.

(** A session without its context.  The store holds the context of a
    session by value, while [create_session] keeps the very dictionary it
    was given: sessions created from one dictionary share it, and an update
    made through one of them shows in the others.  What is stated of the
    sessions an operation does not address is therefore stated of
    everything but their context. *)
Definition apart_from_context (s : UserSession) : UserSession :=
  set_user_context ∅ s.

(** The queries the language model generates are ASCII text. *)
Definition generates_ascii (p : PipelineParts) : Prop :=
  ∀ qc intent_data schema_info sql,
    generate_sql_query p qc intent_data schema_info = Return (Some sql) →
    isascii sql = true.

(** The line of the context built from a search result, and the lengths
    of a list of lines added up. *)
Definition context_line (r : SearchResult) : string := "- " +:+ sr_content r.

Definition total_length (lines : list string) : Z :=
  Z.of_nat (sum_list (String.length <$> lines)).

(** One hierarchy among those the statements range over: the built-in
    classes outside [Exception], every other class under it. *)
Definition builtin_hierarchy : Hierarchy :=
  λ cls, negb (bool_decide
                 (cls ∈ ["BaseException"; "BaseExceptionGroup"; "GeneratorExit";
                         "KeyboardInterrupt"; "SystemExit"; "CancelledError"])).

(** A pipeline whose language model asks for SQL and generates a query
    that starts with [select], and a query context for it. *)
Definition example_parts : PipelineParts :=
  mkPipelineParts
    (λ _, Return {[ "requires_sql" := PyBool true ]})
    "users(id, username)"
    (λ _ _ _, Return (Some "select 1; DROP TABLE users"))
    (λ _, Return (mkQueryResult true [] [] 0 None))
    (λ _ _ _, Return "done").

Definition example_query : QueryContext :=
  mkQueryContext "alice" "session-0" "how many users?" [] None.

(** A search result the context loop takes into account: relevance
    above 0.3. *)
Definition relevant (r : SearchResult) : Prop :=
  PrimFloat.ltb 0x1.3333333333333p-2 (sr_relevance_score r) = true.

#[global] Instance relevant_dec r : Decision (relevant r).
Proof. unfold relevant. apply _. Defined.

(** alice's session of [opened_world], looked at three hours of clock
    readings later. *)
Definition stale_world : World := after_readings 200 opened_world.

(** A session with two recorded turns. *)
Definition chatty_session : UserSession :=
  mkSession "session-0" "alice" 0 60000000
    [ mkTurn 10 "hi" "hello" None 0 ∅;
      mkTurn 20 "courses?" "three" None 0 ∅ ] ∅ true.

(** * Properties *)

(** ** Dictionaries *)

Section PyDictFacts.
Context {V : Type}.
Implicit Types (k : string) (v : V) (d : list (string * V)).

Lemma dict_get_set_eq k v d : dict_get k (dict_set k v d) = Some v.
Proof.
  induction d as [|[k' v'] d IH]; simpl.
  - by rewrite decide_True.
  - destruct (decide (k = k')) as [->|Hne]; simpl.
    + by rewrite decide_True.
    + by rewrite decide_False.
Qed.

Lemma dict_get_set_ne k k' v d :
  k ≠ k' → dict_get k' (dict_set k v d) = dict_get k' d.
Proof.
  intros Hne. induction d as [|[k0 v0] d IH]; simpl.
  - by rewrite decide_False.
  - destruct (decide (k = k0)) as [->|Hk0]; simpl.
    + by rewrite !decide_False.
    + destruct (decide (k' = k0)); [done | exact IH].
Qed.

Lemma dict_get_del_eq k d : dict_get k (dict_del k d) = None.
Proof.
  induction d as [|[k' v'] d IH]; simpl; [done|].
  destruct (decide (k = k')); simpl; [done|]. by rewrite decide_False.
Qed.

Lemma dict_get_del_ne k k' d :
  k ≠ k' → dict_get k' (dict_del k d) = dict_get k' d.
Proof.
  intros Hne. induction d as [|[k0 v0] d IH]; simpl; [done|].
  destruct (decide (k = k0)) as [->|Hk0]; simpl.
  - by rewrite decide_False.
  - destruct (decide (k' = k0)); [done | exact IH].
Qed.

Lemma dict_set_set k v v' d : dict_set k v (dict_set k v' d) = dict_set k v d.
Proof.
  induction d as [|[k' v0] d IH]; simpl.
  - by rewrite decide_True.
  - destruct (decide (k = k')) as [->|Hne]; simpl.
    + by rewrite decide_True.
    + rewrite decide_False by done. by rewrite IH.
Qed.

(** Writing back the value already stored is the identity. *)
Lemma dict_set_same k v d : dict_get k d = Some v → dict_set k v d = d.
Proof.
  induction d as [|[k' v'] d IH]; simpl; [done|].
  destruct (decide (k = k')) as [->|Hne]; intros H.
  - by simplify_eq.
  - by rewrite IH.
Qed.

Lemma dict_get_Some_elem_of k v d : dict_get k d = Some v → (k, v) ∈ d.
Proof.
  induction d as [|[k' v'] d IH]; simpl; [done|].
  destruct (decide (k = k')) as [->|Hne]; intros H.
  - simplify_eq. apply list_elem_of_here.
  - apply list_elem_of_further, IH, H.
Qed.

Lemma dict_get_None_keys k d : dict_get k d = None ↔ k ∉ dict_keys d.
Proof.
  unfold dict_keys. induction d as [|[k' v'] d IH]; simpl.
  - split; [intros _; apply not_elem_of_nil | done].
  - rewrite not_elem_of_cons. destruct (decide (k = k')) as [->|Hne].
    + split; [done | intros [? _]; done].
    + rewrite IH. tauto.
Qed.

Lemma dict_keys_set_present k v d :
  k ∈ dict_keys d → dict_keys (dict_set k v d) = dict_keys d.
Proof.
  unfold dict_keys. induction d as [|[k' v'] d IH]; simpl.
  - by intros ?%elem_of_nil.
  - destruct (decide (k = k')) as [->|Hne]; simpl; [done|].
    intros [?|Hin]%elem_of_cons; [done|]. f_equal. by apply IH.
Qed.

Lemma dict_keys_set_absent k v d :
  k ∉ dict_keys d → dict_keys (dict_set k v d) = dict_keys d ++ [k].
Proof.
  unfold dict_keys. induction d as [|[k' v'] d IH]; simpl; [done|].
  rewrite not_elem_of_cons. intros [Hne Hnin].
  rewrite decide_False by done. simpl. f_equal. by apply IH.
Qed.

(** Assignment keeps the keys of a dictionary distinct. *)
Lemma dict_set_NoDup k v d :
  NoDup (dict_keys d) → NoDup (dict_keys (dict_set k v d)).
Proof.
  intros Hnd. destruct (decide (k ∈ dict_keys d)) as [Hin|Hnin].
  - by rewrite dict_keys_set_present.
  - rewrite dict_keys_set_absent by done.
    apply NoDup_app. split_and!; [done | | apply NoDup_singleton].
    intros x Hx ->%list_elem_of_singleton. done.
Qed.

Lemma dict_keys_del_subseteq k d : dict_keys (dict_del k d) ⊆ dict_keys d.
Proof.
  unfold dict_keys. induction d as [|[k' v'] d IH]; simpl; [done|].
  destruct (decide (k = k')); simpl.
  - by apply list_subseteq_cons.
  - intros x [->|Hx]%elem_of_cons; [left | right; by apply IH].
Qed.

Lemma dict_del_NoDup k d :
  NoDup (dict_keys d) → NoDup (dict_keys (dict_del k d)).
Proof.
  unfold dict_keys. induction d as [|[k' v'] d IH]; simpl; [done|].
  rewrite NoDup_cons. intros [Hnin Hnd].
  destruct (decide (k = k')); simpl; [by apply IH|].
  apply NoDup_cons. split; [|by apply IH].
  intros Hin. apply Hnin. by apply (dict_keys_del_subseteq k d).
Qed.

(** With distinct keys, the entries of a dictionary are its lookups. *)
Lemma dict_get_lookup k v d :
  NoDup (dict_keys d) →
  dict_get k d = Some v ↔ ∃ i, d !! i = Some (k, v).
Proof.
  unfold dict_keys. induction d as [|[k' v'] d IH]; simpl.
  - intros _. split; [done | intros [i Hi]; by rewrite lookup_nil in Hi].
  - rewrite NoDup_cons. intros [Hnin Hnd].
    destruct (decide (k = k')) as [->|Hne].
    + split.
      * intros ?; simplify_eq. by exists 0.
      * intros [[|i] Hi]; simpl in Hi; [by simplify_eq|].
        exfalso. apply Hnin. apply list_elem_of_fmap.
        exists (k', v). split; [done|]. by eapply list_elem_of_lookup_2.
    + rewrite (IH Hnd). split.
      * intros [i Hi]. by exists (S i).
      * intros [[|i] Hi]; simpl in Hi; [by simplify_eq | by exists i].
Qed.

End PyDictFacts.

(** ** Expiry and lookup *)

Lemma fresh_at_gtb t s m :
  (t - last_activity s >? timedelta_minutes (session_timeout_minutes m))%Z = false
  ↔ fresh_at t s m.
Proof. unfold fresh_at. rewrite Z.gtb_ltb, Z.ltb_ge. done. Qed.

Lemma is_expired_eq o s tm w :
  is_expired s tm o w =
  ((datetime_now o (ticks w) - last_activity s >? timedelta_minutes tm)%Z,
   after_readings 1 w).
Proof. reflexivity. Qed.

(** The three outcomes of [get_session], one equation each. *)
Lemma get_session_absent o sid w :
  stored sid w = None → get_session sid o w = (None, w).
Proof.
  unfold stored, get_session, bind, get_manager. simpl. by intros ->.
Qed.

Lemma get_session_expired o sid w s :
  stored sid w = Some s →
  ¬ fresh_at (datetime_now o (ticks w)) s (session_manager w) →
  get_session sid o w = (None, after_readings 1 w).
Proof.
  unfold stored, get_session, bind, get_manager. simpl. intros -> Hexp.
  rewrite <- fresh_at_gtb in Hexp. apply not_false_is_true in Hexp.
  unfold is_expired, bind, now, ret. simpl. by rewrite Hexp.
Qed.

Lemma get_session_fresh o sid w s :
  stored sid w = Some s →
  fresh_at (datetime_now o (ticks w)) s (session_manager w) →
  let s' := set_last_activity (datetime_now o (S (ticks w))) s in
  get_session sid o w =
  (Some s',
   set_manager (set_sessions (dict_set sid s' (sessions (session_manager w)))
                  (session_manager w))
     (after_readings 2 w)).
Proof.
  unfold stored, get_session, bind, get_manager. simpl. intros -> Hfresh.
  rewrite <- fresh_at_gtb in Hfresh.
  unfold is_expired, bind, now, ret. simpl. by rewrite Hfresh.
Qed.

(** Case analysis on a lookup. *)
Lemma get_session_cases o sid w :
  (stored sid w = None ∧ get_session sid o w = (None, w))
  ∨ (∃ s, stored sid w = Some s
        ∧ ¬ fresh_at (datetime_now o (ticks w)) s (session_manager w)
        ∧ get_session sid o w = (None, after_readings 1 w))
  ∨ (∃ s, stored sid w = Some s
        ∧ fresh_at (datetime_now o (ticks w)) s (session_manager w)
        ∧ get_session sid o w =
          (Some (set_last_activity (datetime_now o (S (ticks w))) s),
           set_manager
             (set_sessions
                (dict_set sid (set_last_activity (datetime_now o (S (ticks w))) s)
                   (sessions (session_manager w)))
                (session_manager w))
             (after_readings 2 w))).
Proof.
  destruct (stored sid w) as [s|] eqn:Hs.
  - destruct (decide (fresh_at (datetime_now o (ticks w)) s (session_manager w)))
      as [Hf|Hf].
    + right; right. exists s. split_and!; [done..|].
      exact (get_session_fresh o sid w s Hs Hf).
    + right; left. exists s. split_and!; [done..|].
      exact (get_session_expired o sid w s Hs Hf).
  - left. split; [done|]. by apply get_session_absent.
Qed.

(** C1. [get_session] returns the stored session exactly when it is in
    the authoritative store and not expired at the reading of the clock
    ([now - last_activity <= TTL]).  A successful lookup reads the clock a
    second time, at [accessed], and the session it returns and stores has
    [last_activity = accessed], whatever it was before; its id, owner,
    creation time, turns, context and activity flag, the other sessions,
    the index and the TTL are as they were.  An absent or expired session
    gives [None] and leaves the registry as it was.  Hence the expiry
    slides: after an access at time [accessed], a lookup of the session
    succeeds exactly when it reads a time up to and including
    [accessed + TTL], however long before the access the session had been
    created or last used. *)
Theorem get_session_sliding_expiration (o : Oracle) (sid : string) (w : World) :
  let m := session_manager w in
  let r := get_session sid o w in
  let accessed := datetime_now o (S (ticks w)) in
  (is_Some r.1 ↔
     ∃ s, stored sid w = Some s ∧ fresh_at (datetime_now o (ticks w)) s m)
  ∧ (∀ s', r.1 = Some s' →
       ∃ s, stored sid w = Some s
         ∧ s' = set_last_activity accessed s
         ∧ last_activity s' = accessed
         ∧ (session_id s', user_id s', created_at s')
           = (session_id s, user_id s, created_at s)
         ∧ conversation_history s' = conversation_history s
         ∧ user_context s' = user_context s
         ∧ is_active s' = is_active s
         ∧ stored sid r.2 = Some s'
         ∧ (∀ k, k ≠ sid → stored k r.2 = stored k w)
         ∧ user_to_session (session_manager r.2) = user_to_session m
         ∧ session_timeout_minutes (session_manager r.2) = session_timeout_minutes m
         ∧ ticks r.2 = 2 + ticks w)
  ∧ (r.1 = None → session_manager r.2 = m)
  ∧ (∀ s', r.1 = Some s' →
       ∀ w2, stored sid w2 = Some s' →
         session_timeout_minutes (session_manager w2) = session_timeout_minutes m →
         (is_Some (get_session sid o w2).1 ↔
            (datetime_now o (ticks w2)
               ≤ accessed + timedelta_minutes (session_timeout_minutes m))%Z)).
Proof.
  intros m r accessed. subst m r accessed.
  destruct (get_session_cases o sid w)
    as [[Hs ->] | [(s & Hs & Hexp & ->) | (s & Hs & Hf & ->)]]; simpl.
  - split_and!.
    + split; [by intros [? ?] | intros (s & Hs' & _); congruence].
    + done.
    + done.
    + done.
  - split_and!.
    + split; [by intros [? ?] |].
      intros (s' & Hs' & Hf). rewrite Hs in Hs'. by simplify_eq.
    + done.
    + done.
    + done.
  - split_and!.
    + split; [intros _; by exists s | intros _; by eexists].
    + intros s' [= <-]. exists s. split_and!; try done.
      * unfold stored. simpl. apply dict_get_set_eq.
      * intros k Hk. unfold stored. simpl. by apply dict_get_set_ne.
    + done.
    + intros s' [= <-] w2 Hs2 Httl.
      assert (fresh_at (datetime_now o (ticks w2))
                (set_last_activity (datetime_now o (S (ticks w))) s)
                (session_manager w2)
              ↔ (datetime_now o (ticks w2)
                   ≤ datetime_now o (S (ticks w))
                     + timedelta_minutes (session_timeout_minutes (session_manager w)))%Z)
        as Hiff.
      { unfold fresh_at. rewrite Httl. simpl. lia. }
      rewrite <- Hiff.
      destruct (get_session_cases o sid w2)
        as [[Hn _] | [(s2 & Hs2' & Hexp & ->) | (s2 & Hs2' & Hf2 & ->)]]; simpl.
      * congruence.
      * rewrite Hs2 in Hs2'. simplify_eq. split; [by intros [? ?] | done].
      * rewrite Hs2 in Hs2'. simplify_eq. split; [done | by eexists].
Qed.

(** C1, at a concrete input: alice's new session is looked up at minute
    2 and stamped at minute 3; with the TTL of 60 minutes a lookup that
    reads minute 63 finds it, one that reads minute 64 does not. *)
Lemma get_session_sliding_expiration_witness :
  ∃ s', (get_session "session-0" example_oracle opened_world).1 = Some s'
      ∧ last_activity s' = 180000000%Z
      ∧ is_Some (get_session "session-0" example_oracle
                   (after_readings 59
                      (get_session "session-0" example_oracle opened_world).2)).1
      ∧ ¬ is_Some (get_session "session-0" example_oracle
                     (after_readings 60
                        (get_session "session-0" example_oracle opened_world).2)).1.
Proof.
  destruct (get_session_sliding_expiration example_oracle "session-0" opened_world)
    as (_ & Hget & _ & Hslide).
  assert ((get_session "session-0" example_oracle opened_world).1
          = Some resolved_session) as Hr by (vm_compute; reflexivity).
  destruct (Hget resolved_session Hr) as (s & _ & _ & Hact & _).
  exists resolved_session. split_and!.
  - exact Hr.
  - exact Hact.
  - apply (Hslide resolved_session Hr).
    + vm_compute. reflexivity.
    + reflexivity.
    + vm_compute. discriminate.
  - intros Hsome. apply (Hslide resolved_session Hr) in Hsome.
    + vm_compute in Hsome. by apply Hsome.
    + vm_compute. reflexivity.
    + reflexivity.
Defined.

(** ** Appending a turn *)

Lemma add_conversation_turn_absent o sid um br sq conf md w :
  stored sid w = None →
  add_conversation_turn sid um br sq conf md o w = (false, w).
Proof.
  intros Hs. unfold add_conversation_turn, bind.
  by rewrite (get_session_absent o sid w Hs).
Qed.

Lemma add_conversation_turn_expired o sid um br sq conf md w s :
  stored sid w = Some s →
  ¬ fresh_at (datetime_now o (ticks w)) s (session_manager w) →
  add_conversation_turn sid um br sq conf md o w = (false, after_readings 1 w).
Proof.
  intros Hs Hexp. unfold add_conversation_turn, bind.
  by rewrite (get_session_expired o sid w s Hs Hexp).
Qed.

Lemma add_conversation_turn_fresh o sid um br sq conf md w s :
  stored sid w = Some s →
  fresh_at (datetime_now o (ticks w)) s (session_manager w) →
  add_conversation_turn sid um br sq conf md o w =
  (true,
   set_manager
     (set_sessions
        (dict_set sid (with_turn o (ticks w) um br sq conf md s)
           (sessions (session_manager w)))
        (session_manager w))
     (after_readings 4 w)).
Proof.
  intros Hs Hf. unfold add_conversation_turn, bind.
  rewrite (get_session_fresh o sid w s Hs Hf).
  unfold add_turn, bind, now, ret, get_manager, put_manager, set_manager,
    after_readings, set_sessions. simpl.
  by rewrite dict_set_set.
Qed.

(** C2, as the code has it.  [add_conversation_turn] returns [true]
    exactly when the session is in the authoritative store and not expired,
    whatever its [is_active] flag; it then appends the turn to the session's
    log and refreshes [last_activity]; in every other case it returns
    [false] and leaves the registry as it was. *)
Theorem add_conversation_turn_iff_present_and_fresh
    (o : Oracle) (sid um br : string) (sq : option string) (conf : float)
    (md : option PyMap) (w : World) :
  let m := session_manager w in
  let r := add_conversation_turn sid um br sq conf md o w in
  (r.1 = true ↔
     ∃ s, stored sid w = Some s ∧ fresh_at (datetime_now o (ticks w)) s m)
  ∧ (∀ s, stored sid w = Some s → r.1 = true →
       stored sid r.2 = Some (with_turn o (ticks w) um br sq conf md s)
       ∧ (∀ k, k ≠ sid → stored k r.2 = stored k w)
       ∧ user_to_session (session_manager r.2) = user_to_session m)
  ∧ (r.1 = false → session_manager r.2 = m).
Proof.
  intros m r. subst m r.
  destruct (stored sid w) as [s|] eqn:Hs.
  - destruct (decide (fresh_at (datetime_now o (ticks w)) s (session_manager w)))
      as [Hf|Hexp].
    + rewrite (add_conversation_turn_fresh o sid um br sq conf md w s Hs Hf).
      simpl. split_and!.
      * split; [intros _; by exists s | done].
      * intros s' [= <-] _. split_and!; [| |done].
        -- unfold stored. simpl. apply dict_get_set_eq.
        -- intros k Hk. unfold stored. simpl. rewrite dict_get_set_ne by done.
           done.
      * done.
    + rewrite (add_conversation_turn_expired o sid um br sq conf md w s Hs Hexp).
      simpl. split_and!.
      * split; [done | intros (s' & [= <-] & Hf); done].
      * done.
      * done.
  - rewrite (add_conversation_turn_absent o sid um br sq conf md w Hs).
    simpl. split_and!.
    + split; [done | intros (s' & [=] & _)].
    + done.
    + done.
Qed.

(** C2, counterexample to the claim as stated: alice's session has been
    closed ([is_active] is [false]) and is not expired, yet appending to it
    returns [true] and the turn is in its log. *)
Lemma closed_session_accepts_turn :
  (∃ s, stored "session-0" closed_world = Some s
      ∧ is_active s = false
      ∧ fresh_at (datetime_now example_oracle (ticks closed_world)) s
          (session_manager closed_world))
  ∧ (add_conversation_turn "session-0" "hi" "hello" None 0 None
       example_oracle closed_world).1 = true
  ∧ (∃ s', stored "session-0"
             (add_conversation_turn "session-0" "hi" "hello" None 0 None
                example_oracle closed_world).2 = Some s'
         ∧ length (conversation_history s') = 1).
Proof.
  split_and!.
  - eexists. split_and!; [vm_compute; reflexivity | reflexivity |].
    vm_compute. discriminate.
  - vm_compute. reflexivity.
  - eexists. split; [vm_compute; reflexivity | reflexivity].
Qed.

(** ** Closing a session *)

Lemma set_is_active_same s : is_active s = false → set_is_active false s = s.
Proof. destruct s; simpl; by intros ->. Qed.

Lemma set_manager_same w : set_manager (session_manager w) w = w.
Proof. by destruct w. Qed.

Lemma set_sessions_same m : set_sessions (sessions m) m = m.
Proof. by destruct m. Qed.

Lemma close_session_absent o sid w :
  stored sid w = None → close_session sid o w = (false, w).
Proof. unfold stored, close_session, bind, get_manager. simpl. by intros ->. Qed.

(** The index after closing [sid], which belonged to [uid]. *)
Lemma close_session_present o sid w s :
  stored sid w = Some s →
  close_session sid o w =
  (true,
   set_manager
     (mkManager
        (dict_set sid (set_is_active false s) (sessions (session_manager w)))
        (if decide (user_to_session (session_manager w) !! user_id s = Some sid)
         then delete (user_id s) (user_to_session (session_manager w))
         else user_to_session (session_manager w))
        (session_timeout_minutes (session_manager w))
        (cleanup_interval_minutes (session_manager w)))
     w).
Proof.
  unfold stored, close_session, bind, get_manager, put_manager, ret. simpl.
  intros ->. simpl.
  destruct (user_to_session (session_manager w) !! user_id s) as [cur|] eqn:Hcur.
  - destruct (decide (cur = sid)) as [->|Hne].
    + by rewrite decide_True.
    + rewrite decide_False by congruence. done.
  - by rewrite decide_False.
Qed.

(** Closing a session that is already inactive and that the index does
    not point at changes nothing. *)
Lemma close_session_inactive o sid w s :
  stored sid w = Some s →
  is_active s = false →
  user_to_session (session_manager w) !! user_id s ≠ Some sid →
  close_session sid o w = (true, w).
Proof.
  intros Hs Hina Hidx. rewrite (close_session_present o sid w s Hs).
  rewrite decide_False by done. rewrite set_is_active_same by done.
  rewrite (dict_set_same sid s) by exact Hs.
  f_equal. destruct w as [[] ? ? ?]; reflexivity.
Qed.

(** C8, as the code has it.  [close_session] returns [true] exactly when
    the sessionId is in the authoritative store, closed or not: closing a
    never-created (or already swept) sessionId returns [false] and leaves
    the world as it was; closing again a session that is still in the store
    returns the same answer as the first call, [true], and changes nothing.
    The method has no failure path. *)
Theorem close_session_repeat (o : Oracle) (sid : string) (w : World) :
  let r1 := close_session sid o w in
  let r2 := close_session sid o r1.2 in
  (r1.1 = true ↔ is_Some (stored sid w))
  ∧ (stored sid w = None → r1 = (false, w))
  ∧ r2.1 = r1.1
  ∧ r2.2 = r1.2
  ∧ (∀ s, stored sid w = Some s → is_active s = false →
       user_to_session (session_manager w) !! user_id s ≠ Some sid →
       r1 = (true, w)).
Proof.
  intros r1 r2. subst r1 r2.
  destruct (stored sid w) as [s|] eqn:Hs.
  - rewrite (close_session_present o sid w s Hs). simpl.
    set (w1 := set_manager _ w).
    assert (stored sid w1 = Some (set_is_active false s)) as Hs1.
    { unfold stored, w1. simpl. apply dict_get_set_eq. }
    assert (close_session sid o w1 = (true, w1)) as Hagain.
    { apply (close_session_inactive o sid w1 _ Hs1); [done|].
      unfold w1. simpl. case_decide as Hidx.
      - rewrite lookup_delete_eq. done.
      - exact Hidx. }
    rewrite Hagain. simpl. split_and!; try done.
    intros s' [= <-] Hina Hidx.
    pose proof (close_session_inactive o sid w s Hs Hina Hidx) as Hsame.
    rewrite (close_session_present o sid w s Hs) in Hsame. exact Hsame.
  - rewrite (close_session_absent o sid w Hs). simpl.
    rewrite (close_session_absent o sid w Hs). simpl.
    split_and!; try done.
Qed.

(** C8, counterexample to the claim as stated: alice's session has been
    closed and is still in the store; closing it again returns [true], not
    [false]. *)
Lemma close_closed_session_returns_true :
  (∃ s, stored "session-0" closed_world = Some s ∧ is_active s = false)
  ∧ (close_session "session-0" example_oracle closed_world).1 = true.
Proof.
  split.
  - eexists. split; [vm_compute; reflexivity | reflexivity].
  - vm_compute. reflexivity.
Qed.

(** ** Reading the history *)

Lemma get_session_is_Some o sid w s :
  stored sid w = Some s →
  is_Some (get_session sid o w).1
  ↔ fresh_at (datetime_now o (ticks w)) s (session_manager w).
Proof.
  intros Hs.
  destruct (get_session_cases o sid w)
    as [[Hn _] | [(s2 & Hs2 & Hexp & ->) | (s2 & Hs2 & Hf & ->)]]; simpl.
  - congruence.
  - rewrite Hs in Hs2. simplify_eq. split; [by intros [? ?] | done].
  - rewrite Hs in Hs2. simplify_eq. split; [done | by eexists].
Qed.

(** C10. Reading the history of a session that is present and not
    expired is not a pure read: the call returns the last [max_turns]
    turns and stores the session with [last_activity] set to the clock
    reading taken by the lookup, its turns, context, activity flag and
    identity being as before and every other session and the index being
    untouched.  The session's expiry is thereafter counted from that
    reading: the next lookup finds it exactly when it reads a time up to
    that reading plus the TTL. *)
Theorem get_conversation_history_refreshes_activity
    (o : Oracle) (sid : string) (max_turns : Z) (w : World) (s : UserSession) :
  stored sid w = Some s →
  fresh_at (datetime_now o (ticks w)) s (session_manager w) →
  let r := get_conversation_history sid max_turns o w in
  ∃ s',
    stored sid r.2 = Some s'
    ∧ r.1 = match conversation_history s with
            | [] => []
            | h => slice_last max_turns h
            end
    ∧ last_activity s' = datetime_now o (S (ticks w))
    ∧ conversation_history s' = conversation_history s
    ∧ user_context s' = user_context s
    ∧ is_active s' = is_active s
    ∧ (session_id s', user_id s', created_at s')
      = (session_id s, user_id s, created_at s)
    ∧ (∀ k, k ≠ sid → stored k r.2 = stored k w)
    ∧ user_to_session (session_manager r.2) = user_to_session (session_manager w)
    ∧ (∀ w2, stored sid w2 = Some s' →
         session_timeout_minutes (session_manager w2)
         = session_timeout_minutes (session_manager w) →
         (is_Some (get_session sid o w2).1 ↔
            (datetime_now o (ticks w2)
               ≤ datetime_now o (S (ticks w))
                 + timedelta_minutes (session_timeout_minutes (session_manager w)))%Z)).
Proof.
  intros Hs Hf r. subst r.
  unfold get_conversation_history, bind.
  rewrite (get_session_fresh o sid w s Hs Hf). simpl.
  exists (set_last_activity (datetime_now o (S (ticks w))) s).
  split_and!; try done.
  - unfold stored. simpl. apply dict_get_set_eq.
  - intros k Hk. unfold stored. simpl. by apply dict_get_set_ne.
  - intros w2 Hs2 Httl. rewrite (get_session_is_Some o sid w2 _ Hs2).
    unfold fresh_at. rewrite Httl. simpl. lia.
Qed.

(** C10, at a concrete input: alice's new session, read once. *)
Lemma get_conversation_history_refreshes_activity_witness :
  ∃ s',
    stored "session-0"
      (get_conversation_history "session-0" 10 example_oracle opened_world).2
    = Some s'
    ∧ last_activity s' = 180000000%Z.
Proof.
  destruct (get_conversation_history_refreshes_activity example_oracle
              "session-0" 10 opened_world
              (mkSession "session-0" "alice" 0 60000000 [] ∅ true))
    as (s' & Hs' & _ & Hla & _).
  - vm_compute. reflexivity.
  - vm_compute. discriminate.
  - exists s'. split; [exact Hs' | exact Hla].
Defined.

(** ** The invariant of the registry *)

Section Invariant.
Context (o : Oracle).
Implicit Types (m : SessionManager) (w : World) (s : UserSession).

Lemma registry_inv_index_valid m d : registry_inv o m d → index_valid m.
Proof.
  intros Hinv u sid Hu. destruct (inv_index _ _ _ Hinv u sid Hu) as (s & ? & ? & ?).
  by exists s.
Qed.

Lemma registry_inv_index_owned m d : registry_inv o m d → index_owned m.
Proof.
  intros Hinv u sid s Hu Hs.
  destruct (inv_index _ _ _ Hinv u sid Hu) as (s' & Hs' & _ & Hown).
  congruence.
Qed.

Lemma registry_inv_init timeout interval :
  registry_inv o (SessionManager_init timeout interval) 0.
Proof.
  split; simpl.
  - apply NoDup_nil_2.
  - done.
  - done.
  - intros u sid Hu. by rewrite lookup_empty in Hu.
Qed.

(** A mutation of a stored session that keeps its id, its owner and its
    activity flag. *)
Lemma registry_inv_update m d sid s s' :
  registry_inv o m d →
  dict_get sid (sessions m) = Some s →
  session_id s' = session_id s →
  user_id s' = user_id s →
  is_active s' = is_active s →
  registry_inv o (set_sessions (dict_set sid s' (sessions m)) m) d.
Proof.
  intros [Hnd Hids Hdr Hidx] Hs Hid Hown Hact. split; simpl.
  - by apply dict_set_NoDup.
  - intros k s0. destruct (decide (sid = k)) as [<-|Hne].
    + rewrite dict_get_set_eq. intros [= <-]. rewrite Hid. by apply Hids.
    + rewrite dict_get_set_ne by done. apply Hids.
  - intros k s0. destruct (decide (sid = k)) as [<-|Hne].
    + intros _. by apply (Hdr sid s).
    + rewrite dict_get_set_ne by done. apply Hdr.
  - intros u k Hu. destruct (Hidx u k Hu) as (s0 & Hs0 & Hact0 & Hown0).
    destruct (decide (sid = k)) as [<-|Hne].
    + exists s'. rewrite dict_get_set_eq. split_and!; [done|..]; congruence.
    + exists s0. rewrite dict_get_set_ne by done. done.
Qed.

(** [close_session] on a stored session. *)
Lemma registry_inv_close m d sid s :
  registry_inv o m d →
  dict_get sid (sessions m) = Some s →
  registry_inv o
    (mkManager
       (dict_set sid (set_is_active false s) (sessions m))
       (if decide (user_to_session m !! user_id s = Some sid)
        then delete (user_id s) (user_to_session m)
        else user_to_session m)
       (session_timeout_minutes m) (cleanup_interval_minutes m)) d.
Proof.
  intros [Hnd Hids Hdr Hidx] Hs. split; simpl.
  - by apply dict_set_NoDup.
  - intros k s0. destruct (decide (sid = k)) as [<-|Hne].
    + rewrite dict_get_set_eq. intros [= <-]. simpl. by apply Hids.
    + rewrite dict_get_set_ne by done. apply Hids.
  - intros k s0. destruct (decide (sid = k)) as [<-|Hne].
    + intros _. by apply (Hdr sid s).
    + rewrite dict_get_set_ne by done. apply Hdr.
  - intros u k Hu.
    assert (user_to_session m !! u = Some k ∧ k ≠ sid) as [Hu' Hne].
    { case_decide as Hcur.
      - apply lookup_delete_Some in Hu as [Hneu Hu]. split; [done|].
        intros ->. destruct (Hidx u sid Hu) as (s0 & Hs0 & _ & Hown0).
        rewrite Hs in Hs0. by simplify_eq.
      - split; [done|]. intros ->.
        destruct (Hidx u sid Hu) as (s0 & Hs0 & _ & Hown0).
        rewrite Hs in Hs0. by simplify_eq. }
    destruct (Hidx u k Hu') as (s0 & Hs0 & Hact0 & Hown0).
    exists s0. rewrite dict_get_set_ne by done. done.
Qed.

(** One iteration of the removal loop of the sweep. *)
Lemma remove_session_sessions m sid k :
  dict_get k (sessions (remove_session m sid))
  = if decide (k = sid) then None else dict_get k (sessions m).
Proof.
  unfold remove_session.
  destruct (dict_get sid (sessions m)) as [s|] eqn:Hs.
  - assert (sessions
              (match user_to_session (set_sessions (dict_del sid (sessions m)) m)
                       !! user_id s with
               | Some cur =>
                   if decide (cur = sid)
                   then set_user_to_session
                          (delete (user_id s)
                             (user_to_session
                                (set_sessions (dict_del sid (sessions m)) m)))
                          (set_sessions (dict_del sid (sessions m)) m)
                   else set_sessions (dict_del sid (sessions m)) m
               | None => set_sessions (dict_del sid (sessions m)) m
               end) = dict_del sid (sessions m)) as ->.
    { destruct (_ !! _); [case_decide|]; reflexivity. }
    case_decide as Hk.
    + subst. apply dict_get_del_eq.
    + apply dict_get_del_ne. congruence.
  - case_decide as Hk; [by subst | done].
Qed.

Lemma remove_session_index m sid u k :
  user_to_session (remove_session m sid) !! u = Some k
  ↔ user_to_session m !! u = Some k
    ∧ ¬ (k = sid ∧ ∃ s, dict_get sid (sessions m) = Some s ∧ user_id s = u).
Proof.
  unfold remove_session.
  destruct (dict_get sid (sessions m)) as [s|] eqn:Hs; simpl.
  - destruct (user_to_session m !! user_id s) as [cur|] eqn:Hcur.
    + destruct (decide (cur = sid)) as [->|Hne]; simpl.
      * rewrite lookup_delete_Some. split.
        -- intros [Hneu Hu]. split; [done|].
           intros [-> (s' & [= <-] & <-)]. done.
        -- intros [Hu Hnot]. split; [|done].
           intros <-. apply Hnot. rewrite Hcur in Hu. simplify_eq.
           split; [done|]. by exists s.
      * split; [|tauto]. intros Hu. split; [done|].
        intros [-> (s' & [= <-] & <-)]. simpl in Hu. congruence.
    + split; [|tauto]. intros Hu. split; [done|].
      intros [-> (s' & [= <-] & <-)]. simpl in Hu. congruence.
  - split; [|tauto]. intros Hu. split; [done|]. intros [_ (s' & [=] & _)].
Qed.

Lemma remove_session_keys m sid :
  dict_keys (sessions (remove_session m sid)) = dict_keys (dict_del sid (sessions m)).
Proof.
  unfold remove_session. destruct (dict_get sid (sessions m)) as [s|] eqn:Hs.
  - simpl. destruct (_ !! _); [case_decide|]; reflexivity.
  - f_equal. clear -Hs. induction (sessions m) as [|[k v] l IH]; simpl in *; [done|].
    destruct (decide (sid = k)); [done|]. f_equal. by apply IH.
Qed.

Lemma registry_inv_remove m d sid :
  registry_inv o m d → registry_inv o (remove_session m sid) d.
Proof.
  intros [Hnd Hids Hdr Hidx]. split.
  - rewrite remove_session_keys. by apply dict_del_NoDup.
  - intros k s. rewrite remove_session_sessions. case_decide; [done|]. apply Hids.
  - intros k s. rewrite remove_session_sessions. case_decide; [done|]. apply Hdr.
  - intros u k [Hu Hnot]%remove_session_index.
    destruct (Hidx u k Hu) as (s & Hs & Hact & Hown).
    exists s. rewrite remove_session_sessions.
    rewrite decide_False; [done|]. intros ->. apply Hnot. split; [done|]. by exists s.
Qed.

Lemma registry_inv_foldl_remove m d ks :
  registry_inv o m d → registry_inv o (foldl remove_session m ks) d.
Proof.
  revert m. induction ks as [|k ks IH]; intros m Hinv; simpl; [done|].
  by apply IH, registry_inv_remove.
Qed.

End Invariant.

(** ** Creating a session *)

Lemma create_session_eq o uid ctx w :
  create_session uid ctx o w =
  (uuid_stream o (draws w),
   mkWorld
     (mkManager
        (dict_set (uuid_stream o (draws w)) (new_session o w uid ctx)
           (superseded uid (session_manager w)))
        (<[uid := uuid_stream o (draws w)]> (user_to_session (session_manager w)))
        (session_timeout_minutes (session_manager w))
        (cleanup_interval_minutes (session_manager w)))
     (user_locks w) (S (S (ticks w))) (S (draws w))).
Proof. reflexivity. Qed.

Lemma superseded_get uid m k :
  dict_get k (superseded uid m)
  = match dict_get k (sessions m) with
    | Some s =>
        Some (if decide (user_to_session m !! uid = Some k)
              then set_is_active false s else s)
    | None => None
    end.
Proof.
  unfold superseded.
  destruct (user_to_session m !! uid) as [old|] eqn:Hold.
  - destruct (dict_get old (sessions m)) as [s0|] eqn:Hs0.
    + destruct (decide (old = k)) as [<-|Hne].
      * rewrite dict_get_set_eq, Hs0. by rewrite decide_True.
      * rewrite dict_get_set_ne by done.
        destruct (dict_get k (sessions m)); [|done].
        rewrite decide_False; [done | congruence].
    + destruct (dict_get k (sessions m)) as [s|] eqn:Hs; [|done].
      rewrite decide_False; [done|]. intros [= ->]. congruence.
  - destruct (dict_get k (sessions m)); [|done]. by rewrite decide_False.
Qed.

Lemma superseded_keys uid m :
  dict_keys (superseded uid m) = dict_keys (sessions m).
Proof.
  unfold superseded.
  destruct (user_to_session m !! uid) as [old|]; [|done].
  destruct (dict_get old (sessions m)) as [s0|] eqn:Hs0; [|done].
  apply dict_keys_set_present.
  destruct (decide (old ∈ dict_keys (sessions m))) as [|Hnin]; [done|].
  apply dict_get_None_keys in Hnin. congruence.
Qed.

(** A fresh draw is not a key of the store. *)
Lemma registry_inv_fresh_draw o m d :
  Inj (=) (=) (uuid_stream o) →
  registry_inv o m d →
  dict_get (uuid_stream o d) (sessions m) = None.
Proof.
  intros Hinj Hinv.
  destruct (dict_get (uuid_stream o d) (sessions m)) as [s|] eqn:Hs; [|done].
  destruct (inv_drawn _ _ _ Hinv _ _ Hs) as (n & Hn & Heq).
  apply Hinj in Heq. lia.
Qed.

Lemma registry_inv_create o w uid ctx :
  Inj (=) (=) (uuid_stream o) →
  world_inv o w →
  world_inv o (create_session uid ctx o w).2.
Proof.
  intros Hinj Hinv. rewrite create_session_eq. unfold world_inv. simpl.
  pose proof (registry_inv_fresh_draw o _ _ Hinj Hinv) as Hfresh.
  destruct Hinv as [Hnd Hids Hdr Hidx].
  set (sid := uuid_stream o (draws w)) in *.
  split; simpl.
  - apply dict_set_NoDup. by rewrite superseded_keys.
  - intros k s. destruct (decide (sid = k)) as [<-|Hne].
    + rewrite dict_get_set_eq. by intros [= <-].
    + rewrite dict_get_set_ne by done. rewrite superseded_get.
      destruct (dict_get k (sessions (session_manager w))) as [s0|] eqn:Hs0; [|done].
      intros [= <-]. case_decide; simpl; by apply Hids.
  - intros k s. destruct (decide (sid = k)) as [<-|Hne].
    + intros _. exists (draws w). split; [lia | done].
    + rewrite dict_get_set_ne by done. rewrite superseded_get.
      destruct (dict_get k (sessions (session_manager w))) as [s0|] eqn:Hs0; [|done].
      intros _. destruct (Hdr k s0 Hs0) as (n & Hn & ->). exists n. split; [lia | done].
  - intros u k. destruct (decide (uid = u)) as [<-|Hneu].
    + rewrite lookup_insert_eq. intros [= <-].
      eexists. rewrite dict_get_set_eq. done.
    + rewrite lookup_insert_ne by done. intros Hu.
      destruct (Hidx u k Hu) as (s0 & Hs0 & Hact0 & Hown0).
      assert (sid ≠ k) as Hne by (intros <-; congruence).
      exists s0. rewrite dict_get_set_ne by done. rewrite superseded_get, Hs0.
      rewrite decide_False; [done|]. intros Huid.
      destruct (Hidx uid k Huid) as (s1 & Hs1 & _ & Hown1). congruence.
Qed.

(** ** The sweep *)

Lemma after_readings_add a b w :
  after_readings a (after_readings b w) = after_readings (a + b) w.
Proof. unfold after_readings. simpl. f_equal. lia. Qed.

Lemma collect_expired_eq o items timeout w :
  collect_expired items timeout o w
  = (swept_keys o (ticks w) timeout items, after_readings (length items) w).
Proof.
  revert w. induction items as [|[sid s] items IH]; intros w; simpl.
  - unfold ret, after_readings. by destruct w.
  - unfold bind. rewrite is_expired_eq. rewrite IH. simpl.
    rewrite after_readings_add. replace (length items + 1) with (S (length items)) by lia.
    unfold ret. by destruct (_ || _).
Qed.

Lemma cleanup_eq o w :
  _cleanup_expired_sessions o w
  = (tt,
     set_manager
       (foldl remove_session (session_manager w)
          (swept_keys o (ticks w) (session_timeout_minutes (session_manager w))
             (sessions (session_manager w))))
       (after_readings (length (sessions (session_manager w))) w)).
Proof.
  unfold _cleanup_expired_sessions, bind, get_manager, put_manager.
  by rewrite collect_expired_eq.
Qed.

(** ** Every operation keeps the invariant *)

Lemma update_user_context_cases o sid updates w :
  (update_user_context sid updates o w).1 = false
  ∧ session_manager (update_user_context sid updates o w).2 = session_manager w
  ∧ draws (update_user_context sid updates o w).2 = draws w
  ∨ ∃ s,
      stored sid w = Some s
      ∧ fresh_at (datetime_now o (ticks w)) s (session_manager w)
      ∧ update_user_context sid updates o w =
        (true,
         set_manager
           (set_sessions
              (dict_set sid
                 (mkSession (session_id s) (user_id s) (created_at s)
                    (datetime_now o (2 + ticks w)) (conversation_history s)
                    (updates ∪ user_context s) (is_active s))
                 (sessions (session_manager w)))
              (session_manager w))
           (after_readings 3 w)).
Proof.
  unfold update_user_context, bind.
  destruct (get_session_cases o sid w)
    as [[Hs ->] | [(s & Hs & Hexp & ->) | (s & Hs & Hf & ->)]]; simpl.
  - by left.
  - by left.
  - right. exists s. split_and!; [done..|].
    unfold now, bind, ret, get_manager, put_manager, set_manager, set_sessions,
      after_readings. simpl. by rewrite dict_set_set.
Qed.

Lemma bind_ret_tt_snd {A} (c : M A) o w : ((c ;; ret tt) o w).2 = (c o w).2.
Proof. unfold bind, ret. by destruct (c o w). Qed.

Lemma get_session_inv o sid w :
  world_inv o w → world_inv o (get_session sid o w).2.
Proof.
  intros Hinv.
  destruct (get_session_cases o sid w)
    as [[Hs ->] | [(s & Hs & Hexp & ->) | (s & Hs & Hf & ->)]]; simpl; try done.
  by apply (registry_inv_update o _ _ sid s).
Qed.

Lemma get_user_session_inv o uid w :
  world_inv o w → world_inv o (get_user_session uid o w).2.
Proof.
  intros Hinv. unfold get_user_session, bind, get_manager.
  destruct (user_to_session (session_manager w) !! uid) as [sid|]; [|done].
  case_decide; [done|]. by apply get_session_inv.
Qed.

Lemma add_conversation_turn_inv o sid um br sq conf md w :
  world_inv o w → world_inv o (add_conversation_turn sid um br sq conf md o w).2.
Proof.
  intros Hinv. destruct (stored sid w) as [s|] eqn:Hs.
  - destruct (decide (fresh_at (datetime_now o (ticks w)) s (session_manager w)))
      as [Hf|Hexp].
    + rewrite (add_conversation_turn_fresh o sid um br sq conf md w s Hs Hf). simpl.
      by apply (registry_inv_update o _ _ sid s).
    + by rewrite (add_conversation_turn_expired o sid um br sq conf md w s Hs Hexp).
  - by rewrite (add_conversation_turn_absent o sid um br sq conf md w Hs).
Qed.

Lemma update_user_context_inv o sid updates w :
  world_inv o w → world_inv o (update_user_context sid updates o w).2.
Proof.
  intros Hinv.
  destruct (update_user_context_cases o sid updates w)
    as [(_ & Hm & Hd) | (s & Hs & Hf & Heq)].
  - unfold world_inv. by rewrite Hm, Hd.
  - rewrite Heq. simpl. by apply (registry_inv_update o _ _ sid s).
Qed.

Lemma get_conversation_history_inv o sid n w :
  world_inv o w → world_inv o (get_conversation_history sid n o w).2.
Proof.
  intros Hinv. unfold get_conversation_history, bind.
  pose proof (get_session_inv o sid w Hinv) as H.
  destruct (get_session sid o w) as [[s|] w1]; exact H.
Qed.

Lemma close_session_inv o sid w :
  world_inv o w → world_inv o (close_session sid o w).2.
Proof.
  intros Hinv. destruct (stored sid w) as [s|] eqn:Hs.
  - rewrite (close_session_present o sid w s Hs). simpl.
    by apply (registry_inv_close o _ _ sid s).
  - by rewrite (close_session_absent o sid w Hs).
Qed.

Lemma cleanup_inv o w :
  world_inv o w → world_inv o (_cleanup_expired_sessions o w).2.
Proof.
  intros Hinv. rewrite cleanup_eq. simpl. by apply registry_inv_foldl_remove.
Qed.

Lemma run_op_inv o op w :
  Inj (=) (=) (uuid_stream o) →
  world_inv o w → world_inv o (run_op op o w).2.
Proof.
  intros Hinj Hinv. destruct op; unfold run_op; rewrite ?bind_ret_tt_snd.
  - by apply registry_inv_create.
  - by apply get_session_inv.
  - by apply get_user_session_inv.
  - by apply add_conversation_turn_inv.
  - by apply update_user_context_inv.
  - by apply get_conversation_history_inv.
  - by apply close_session_inv.
  - done.
  - by apply cleanup_inv.
Qed.

Lemma run_ops_inv o ops w :
  Inj (=) (=) (uuid_stream o) →
  world_inv o w → world_inv o (run_ops ops o w).2.
Proof.
  intros Hinj. revert w. induction ops as [|op ops IH]; intros w Hinv; simpl.
  - done.
  - unfold bind. pose proof (run_op_inv o op w Hinj Hinv) as H.
    destruct (run_op op o w) as [[] w1]. by apply IH.
Qed.

Lemma example_oracle_inj : Inj (=) (=) (uuid_stream example_oracle).
Proof.
  intros a b Hab. simpl in Hab.
  apply (inj (String.app "session-")) in Hab. by apply (inj pretty) in Hab.
Qed.

(** C7. In every state reached from a new [SessionManager] by any
    sequence of registry operations, every sessionId stored in the identity
    index is a key of the authoritative store and the session it references
    is active — given that [uuid4] never returns the same id twice. *)
Theorem registry_invariant_reachable
    (o : Oracle) (timeout interval : Z) (ops : list RegistryOp) :
  Inj (=) (=) (uuid_stream o) →
  index_valid (session_manager (run_ops ops o (World_init timeout interval)).2).
Proof.
  intros Hinj. eapply registry_inv_index_valid.
  apply (run_ops_inv o ops _ Hinj). apply registry_inv_init.
Qed.

(** C7, at a concrete run. *)
Lemma registry_invariant_reachable_witness :
  Inj (=) (=) (uuid_stream example_oracle)
  ∧ index_valid (session_manager (run_ops example_ops example_oracle example_world).2).
Proof.
  split.
  - exact example_oracle_inj.
  - exact (registry_invariant_reachable example_oracle 60 10 example_ops
             example_oracle_inj).
Defined.

(** ** What the sweep removes *)

Lemma expired_or_inactive_true t s timeout :
  (t - last_activity s >? timedelta_minutes timeout)%Z || negb (is_active s) = true
  ↔ ¬ (t - last_activity s ≤ timedelta_minutes timeout)%Z ∨ is_active s = false.
Proof.
  rewrite orb_true_iff, negb_true_iff, Z.gtb_ltb, Z.ltb_lt.
  rewrite Z.nle_gt. done.
Qed.

Lemma elem_of_swept_keys o t0 timeout items k :
  k ∈ swept_keys o t0 timeout items
  ↔ ∃ i s, items !! i = Some (k, s)
      ∧ (¬ (datetime_now o (t0 + i) - last_activity s ≤ timedelta_minutes timeout)%Z
         ∨ is_active s = false).
Proof.
  revert t0. induction items as [|[k0 s0] items IH]; intros t0; simpl.
  - split; [by intros ?%elem_of_nil | by intros (i & s & Hi & _)].
  - destruct (_ || _) eqn:Hc.
    + apply expired_or_inactive_true in Hc. rewrite elem_of_cons, IH. split.
      * intros [-> | (i & s & Hi & Hcond)].
        -- exists 0, s0. by rewrite Nat.add_0_r.
        -- exists (S i), s. split; [done|].
           by replace (t0 + S i) with (S t0 + i) by lia.
      * intros ([|i] & s & Hi & Hcond); simpl in Hi.
        -- left. by simplify_eq.
        -- right. exists i, s. split; [done|].
           by replace (S t0 + i) with (t0 + S i) by lia.
    + rewrite IH. split.
      * intros (i & s & Hi & Hcond). exists (S i), s. split; [done|].
        by replace (t0 + S i) with (S t0 + i) by lia.
      * intros ([|i] & s & Hi & Hcond); simpl in Hi.
        -- simplify_eq. rewrite Nat.add_0_r in Hcond.
           apply expired_or_inactive_true in Hcond. congruence.
        -- exists i, s. split; [done|].
           by replace (S t0 + i) with (t0 + S i) by lia.
Qed.

Lemma dict_lookup_unique {V} (d : list (string * V)) i j k v v' :
  NoDup (dict_keys d) →
  d !! i = Some (k, v) → d !! j = Some (k, v') → i = j ∧ v = v'.
Proof.
  intros Hnd Hi Hj.
  assert (i = j) as ->.
  { eapply (NoDup_lookup _ i j k Hnd); unfold dict_keys;
      rewrite list_lookup_fmap; [by rewrite Hi | by rewrite Hj]. }
  split; [done | congruence].
Qed.

Lemma foldl_remove_sessions m ks k :
  dict_get k (sessions (foldl remove_session m ks))
  = if decide (k ∈ ks) then None else dict_get k (sessions m).
Proof.
  revert m. induction ks as [|k0 ks IH]; intros m.
  - done.
  - cbn [foldl]. rewrite IH, remove_session_sessions.
    destruct (decide (k ∈ ks)) as [Hin|Hnin].
    + rewrite decide_True; [done | by right].
    + destruct (decide (k = k0)) as [->|Hne].
      * rewrite decide_True; [done | by left].
      * rewrite decide_False; [done|]. by intros [?|?]%elem_of_cons.
Qed.

Lemma foldl_remove_index m ks u k :
  user_to_session (foldl remove_session m ks) !! u = Some k
  ↔ user_to_session m !! u = Some k
    ∧ ¬ (k ∈ ks ∧ ∃ s, dict_get k (sessions m) = Some s ∧ user_id s = u).
Proof.
  revert m. induction ks as [|k0 ks IH]; intros m; cbn [foldl].
  - split; [|tauto]. intros Hu. split; [done|]. by intros [?%elem_of_nil _].
  - rewrite IH, remove_session_index. split.
    + intros [[Hu Hnot0] Hnot]. split; [done|].
      intros [[->|Hin]%elem_of_cons (s & Hs & Hown)].
      * apply Hnot0. split; [done|]. by exists s.
      * destruct (decide (k = k0)) as [->|Hne].
        -- apply Hnot0. split; [done|]. by exists s.
        -- apply Hnot. split; [done|]. exists s.
           rewrite remove_session_sessions. by rewrite decide_False.
    + intros [Hu Hnot]. split_and!; [done | |].
      * intros [-> (s & Hs & Hown)]. apply Hnot. split; [by left | by exists s].
      * intros [Hin (s & Hs & Hown)]. rewrite remove_session_sessions in Hs.
        case_decide; [done|]. apply Hnot. split; [by right | by exists s].
Qed.

(** C6. After one run of the sweep, started in a registry whose keys are
    distinct and whose index entries name the owner of the session they
    point at: a session that was stored is still stored exactly when it is
    active and was not expired at the clock reading at which the sweep
    examined it, so that every session left in the store is active and not
    expired; every index entry that is left was there before and does not
    reference a removed sessionId; and an index entry is deleted exactly
    when it pointed at a removed sessionId. *)
Theorem sweep_removes_expired_and_inactive (o : Oracle) (w : World) :
  NoDup (dict_keys (sessions (session_manager w))) →
  index_owned (session_manager w) →
  let m := session_manager w in
  let w' := (_cleanup_expired_sessions o w).2 in
  let removed sid := is_Some (stored sid w) ∧ stored sid w' = None in
  (∀ i k s, sessions m !! i = Some (k, s) →
     (is_active s = true ∧ fresh_at (datetime_now o (ticks w + i)) s m →
      stored k w' = Some s)
     ∧ (is_active s = false ∨ ¬ fresh_at (datetime_now o (ticks w + i)) s m →
        stored k w' = None))
  ∧ (∀ k s, stored k w' = Some s →
       is_active s = true
       ∧ ∃ i, sessions m !! i = Some (k, s)
            ∧ fresh_at (datetime_now o (ticks w + i)) s m)
  ∧ (∀ u sid, user_to_session (session_manager w') !! u = Some sid →
       user_to_session m !! u = Some sid ∧ ¬ removed sid)
  ∧ (∀ u sid, user_to_session m !! u = Some sid →
       (user_to_session (session_manager w') !! u = None ↔ removed sid)
       ∧ (user_to_session (session_manager w') !! u = Some sid ↔ ¬ removed sid)).
Proof.
  intros Hnd Hown m w' removed. subst m w' removed. rewrite cleanup_eq. simpl.
  set (m := session_manager w).
  set (ks := swept_keys o (ticks w) (session_timeout_minutes m) (sessions m)).
  assert (∀ k, stored k (set_manager (foldl remove_session m ks)
                           (after_readings (length (sessions m)) w))
               = if decide (k ∈ ks) then None else stored k w) as Hst.
  { intros k. unfold stored. simpl. apply foldl_remove_sessions. }
  assert (∀ i k s, sessions m !! i = Some (k, s) →
            k ∈ ks ↔ (is_active s = false
                      ∨ ¬ fresh_at (datetime_now o (ticks w + i)) s m)) as Hks.
  { intros i k s Hi. unfold ks. rewrite elem_of_swept_keys. split.
    - intros (j & s' & Hj & Hcond).
      destruct (dict_lookup_unique _ _ _ _ _ _ Hnd Hi Hj) as [<- <-].
      unfold fresh_at. tauto.
    - intros Hcond. exists i, s. split; [done|]. unfold fresh_at in Hcond. tauto. }
  assert (∀ sid, (is_Some (stored sid w) ∧
                  stored sid (set_manager (foldl remove_session m ks)
                                (after_readings (length (sessions m)) w)) = None)
                 ↔ (sid ∈ ks ∧ is_Some (stored sid w))) as Hrem.
  { intros sid. rewrite Hst. case_decide as Hin.
    - tauto.
    - split; [intros [[s Hs] Hn]; congruence | tauto]. }
  assert (∀ u sid, user_to_session m !! u = Some sid →
            (∃ s, dict_get sid (sessions m) = Some s ∧ user_id s = u)
            ↔ is_Some (stored sid w)) as Hownd.
  { intros u sid Hu. split.
    - intros (s & Hs & _). by exists s.
    - intros [s Hs]. exists s. split; [done|]. by apply (Hown u sid s). }
  split_and!.
  - intros i k s Hi.
    assert (stored k w = Some s) as Hs.
    { unfold stored. apply dict_get_lookup; [done|]. by exists i. }
    rewrite Hst. split.
    + intros [Hact Hf]. rewrite decide_False; [done|].
      rewrite (Hks i k s Hi). intros [?|?]; [congruence | done].
    + intros Hcond. rewrite decide_True; [done|]. by apply (Hks i k s Hi).
  - intros k s. rewrite Hst. case_decide as Hin; [done|]. intros Hs.
    unfold stored in Hs. apply dict_get_lookup in Hs as [i Hi]; [|done].
    destruct (is_active s) eqn:Hact.
    + split; [done|]. exists i. split; [done|].
      destruct (decide (fresh_at (datetime_now o (ticks w + i)) s m)) as [|Hexp];
        [done|].
      exfalso. apply Hin. apply (Hks i k s Hi). by right.
    + exfalso. apply Hin. apply (Hks i k s Hi). by left.
  - intros u sid [Hu Hnot]%foldl_remove_index. split; [done|].
    rewrite Hrem. intros [Hin Hsome]. apply Hnot. split; [done|].
    by apply (Hownd u sid Hu).
  - intros u sid Hu.
    assert (user_to_session (foldl remove_session m ks) !! u = None
            ↔ ¬ user_to_session (foldl remove_session m ks) !! u = Some sid)
      as Hnone.
    { destruct (user_to_session (foldl remove_session m ks) !! u) as [k|] eqn:Hu'.
      - apply foldl_remove_index in Hu' as [Hu'' _].
        rewrite Hu in Hu''. simplify_eq. split; [done | intros Hn; by destruct Hn].
      - done. }
    assert (user_to_session (foldl remove_session m ks) !! u = Some sid
            ↔ ¬ (sid ∈ ks ∧ is_Some (stored sid w))) as Hkeep.
    { rewrite foldl_remove_index. rewrite (Hownd u sid Hu). tauto. }
    rewrite Hrem. split; [|done].
    rewrite Hnone, Hkeep.
    destruct (decide (sid ∈ ks)); [|tauto].
    destruct (stored sid w) as [s|].
    + split; [intros _; split; [done | by eexists] | tauto].
    + split; [intros Hnn; exfalso; apply Hnn; by intros [_ [? ?]] | tauto].
Qed.

(** C6, at a concrete input: in [busy_world] alice's first session has
    been superseded; the sweep removes it and keeps her second one. *)
Lemma sweep_removes_expired_and_inactive_witness :
  stored "session-0" (_cleanup_expired_sessions example_oracle busy_world).2 = None
  ∧ is_Some (stored "session-2"
               (_cleanup_expired_sessions example_oracle busy_world).2).
Proof.
  assert (world_inv example_oracle busy_world) as Hinv.
  { unfold busy_world. apply (run_ops_inv _ _ _ example_oracle_inj).
    apply registry_inv_init. }
  destruct (sweep_removes_expired_and_inactive example_oracle busy_world
              (inv_nodup _ _ _ Hinv)
              (registry_inv_index_owned _ _ _ Hinv)) as (Hkept & _).
  split.
  - refine (proj2 (Hkept 0 "session-0"
                     (mkSession "session-0" "alice" 0 60000000 [] ∅ false) _) _).
    + vm_compute. reflexivity.
    + left. reflexivity.
  - eexists.
    refine (proj1 (Hkept 2 "session-2"
                     (mkSession "session-2" "alice" 240000000 300000000 [] ∅ true) _) _).
    + vm_compute. reflexivity.
    + split; [reflexivity | vm_compute; discriminate].
Defined.

(** ** Supersession *)

(** The sweep removes a stored session that is inactive. *)
Lemma cleanup_removes_inactive o w sid s :
  (sid, s) ∈ sessions (session_manager w) →
  is_active s = false →
  stored sid (_cleanup_expired_sessions o w).2 = None.
Proof.
  intros Hin Hina. rewrite cleanup_eq. unfold stored. simpl.
  rewrite foldl_remove_sessions. rewrite decide_True; [done|].
  apply elem_of_swept_keys. apply list_elem_of_lookup in Hin as [i Hi].
  exists i, s. split; [done | by right].
Qed.

(** C5. Two calls of [create_session] for the same user return two
    successive draws of [uuid4], distinct because [uuid4] does not repeat.
    After the second call the index maps the user to the second id, and
    [get_user_session] can only return the session of that id; the first
    session is still an entry of the authoritative store, with [is_active]
    false, so it is among the entries [get_session_stats] counts as
    [total_sessions]; a run of the sweep removes it. *)
Theorem create_session_twice_supersedes
    (o : Oracle) (uid : string) (ctx1 ctx2 : option PyMap) (w : World) :
  Inj (=) (=) (uuid_stream o) →
  let r1 := create_session uid ctx1 o w in
  let r2 := create_session uid ctx2 o r1.2 in
  let w2 := r2.2 in
  r1.1 ≠ r2.1
  ∧ user_to_session (session_manager w2) !! uid = Some r2.1
  ∧ (∀ s, (get_user_session uid o w2).1 = Some s →
       session_id s = r2.1 ∧ session_id s ≠ r1.1)
  ∧ (∃ s1, stored r1.1 w2 = Some s1
         ∧ session_id s1 = r1.1
         ∧ is_active s1 = false
         ∧ (r1.1, s1) ∈ sessions (session_manager w2))
  ∧ total_sessions (get_session_stats o w2).1 = length (sessions (session_manager w2))
  ∧ stored r1.1 (_cleanup_expired_sessions o w2).2 = None.
Proof.
  intros Hinj r1 r2 w2. subst r1 r2 w2. rewrite !create_session_eq. simpl.
  set (sid1 := uuid_stream o (draws w)).
  set (sid2 := uuid_stream o (S (draws w))).
  set (w1 := mkWorld _ (user_locks w) (S (S (ticks w))) (S (draws w))).
  assert (sid1 ≠ sid2) as Hne.
  { unfold sid1, sid2. intros Heq%Hinj. lia. }
  assert (dict_get sid1
            (dict_set sid2 (new_session o w1 uid ctx2)
               (superseded uid (session_manager w1)))
          = Some (set_is_active false (new_session o w uid ctx1))) as Hs1.
  { rewrite dict_get_set_ne by done. rewrite superseded_get.
    unfold w1 at 1. simpl. fold sid1. rewrite dict_get_set_eq.
    unfold w1. simpl. fold sid1. rewrite lookup_insert_eq. by rewrite decide_True. }
  split_and!.
  - done.
  - apply lookup_insert_eq.
  - intros s. unfold get_user_session, bind, get_manager. simpl.
    rewrite lookup_insert_eq. case_decide as Hempty; [done|].
    match goal with |- (get_session sid2 o ?x).1 = _ → _ => set (w2 := x) end.
    destruct (get_session_cases o sid2 w2)
      as [[Hs ->] | [(s2 & Hs & Hexp & ->) | (s2 & Hs & Hf & ->)]]; simpl; try done.
    intros [= <-]. simpl.
    unfold stored, w2 in Hs. simpl in Hs. rewrite dict_get_set_eq in Hs.
    simplify_eq. simpl. split; [done | by intros ?].
  - exists (set_is_active false (new_session o w uid ctx1)).
    split_and!; try done. by apply dict_get_Some_elem_of.
  - done.
  - apply (cleanup_removes_inactive o _ sid1
             (set_is_active false (new_session o w uid ctx1))); [|done].
    simpl. by apply dict_get_Some_elem_of.
Qed.

(** C5, at a concrete input: alice creates two sessions in a new registry. *)
Lemma create_session_twice_supersedes_witness :
  "session-0" ≠ "session-1"
  ∧ user_to_session
      (session_manager
         (create_session "alice" None example_oracle opened_world).2) !! "alice"
    = Some "session-1".
Proof.
  destruct (create_session_twice_supersedes example_oracle "alice" None None
              example_world example_oracle_inj) as (Hne & Hidx & _).
  split; [exact Hne | exact Hidx].
Defined.

(** ** The request coordinator *)


Lemma process_user_request_free {R} o uid um
    (f : UserSession → string → option PyMap → M (result R)) kw w :
  user_locks w !! uid ≠ Some true →
  process_user_request uid um f kw o w =
  (let (session, w1) := get_or_create_session uid kw o (gate_held uid w) in
   match session with
   | None =>
       (Completed (Raise (RuntimeError
          ("Could not create or retrieve session for user " +:+ uid))),
        gate_released uid w1)
   | Some s =>
       let (r, w2) := f s um kw o w1 in (Completed r, gate_released uid w2)
   end).
Proof.
  intros Hfree.
  unfold process_user_request, bind, get_user_lock, lock_locked, lock_acquire,
    lock_release, ret.
  destruct (user_locks w !! uid) as [[|]|] eqn:Hl; [done| |]; simpl.
  - rewrite Hl. simpl. fold (gate_held uid w).
    destruct (get_or_create_session uid kw o (gate_held uid w)) as [[s|] w1];
      [|reflexivity].
    destruct (f s um kw o w1). reflexivity.
  - rewrite lookup_insert_eq. simpl. unfold set_user_locks at 1. simpl.
    rewrite insert_insert_eq.
    change (mkWorld (session_manager w) (<[uid:=true]> (user_locks w))
              (ticks w) (draws w)) with (gate_held uid w).
    destruct (get_or_create_session uid kw o (gate_held uid w)) as [[s|] w1];
      [|reflexivity].
    destruct (f s um kw o w1). reflexivity.
Qed.

(** The miss path of "get or create": a new session, looked up at once. *)
Lemma create_then_get_session o uid kw w s w1 :
  (let! sid := create_session uid kw in get_session sid) o w = (Some s, w1) →
  stored (session_id s) w1 = Some s
  ∧ user_locks w1 = user_locks w
  ∧ session_timeout_minutes (session_manager w1)
    = session_timeout_minutes (session_manager w)
  ∧ session_id s = uuid_stream o (draws w)
  ∧ user_id s = uid
  ∧ conversation_history s = []
  ∧ is_active s = true.
Proof.
  unfold bind. rewrite create_session_eq.
  set (sid := uuid_stream o (draws w)).
  set (wc := mkWorld _ (user_locks w) (S (S (ticks w))) (S (draws w))).
  assert (stored sid wc = Some (new_session o w uid kw)) as Hnew.
  { unfold stored, wc. simpl. apply dict_get_set_eq. }
  destruct (get_session_cases o sid wc)
    as [[Hs ->] | [(s2 & Hs & Hexp & ->) | (s2 & Hs & Hf & ->)]]; [done..|].
  rewrite Hnew in Hs. simplify_eq. intros [= <- <-]. simpl.
  split_and!; try done. unfold stored. simpl. apply dict_get_set_eq.
Qed.

(** The session "get or create" resolves to is stored under its id, and is
    either the indexed session with its activity refreshed by the lookup,
    or a new session without turns. *)
Lemma get_or_create_session_result o uid kw w s w1 :
  ids_consistent w →
  get_or_create_session uid kw o w = (Some s, w1) →
  stored (session_id s) w1 = Some s
  ∧ user_locks w1 = user_locks w
  ∧ session_timeout_minutes (session_manager w1)
    = session_timeout_minutes (session_manager w)
  ∧ ((∃ s0, user_to_session (session_manager w) !! uid = Some (session_id s)
          ∧ stored (session_id s) w = Some s0
          ∧ s = set_last_activity (datetime_now o (S (ticks w))) s0
          ∧ (∀ k, k ≠ session_id s → stored k w1 = stored k w)
          ∧ user_to_session (session_manager w1) = user_to_session (session_manager w))
     ∨ (session_id s = uuid_stream o (draws w)
        ∧ user_id s = uid
        ∧ conversation_history s = []
        ∧ is_active s = true)).
Proof.
  intros Hids. unfold get_or_create_session.
  assert (∀ w0, user_locks w0 = user_locks w →
            session_timeout_minutes (session_manager w0)
            = session_timeout_minutes (session_manager w) →
            draws w0 = draws w →
            (let! sid := create_session uid kw in get_session sid) o w0 = (Some s, w1) →
            stored (session_id s) w1 = Some s
            ∧ user_locks w1 = user_locks w
            ∧ session_timeout_minutes (session_manager w1)
              = session_timeout_minutes (session_manager w)
            ∧ session_id s = uuid_stream o (draws w)
            ∧ user_id s = uid
            ∧ conversation_history s = []
            ∧ is_active s = true) as Hmiss.
  { intros w0 Hl Ht Hd Hrun.
    destruct (create_then_get_session o uid kw w0 s w1 Hrun)
      as (? & ? & ? & ? & ? & ? & ?).
    split_and!; congruence. }
  unfold bind at 1. unfold get_user_session, bind at 1, get_manager.
  destruct (user_to_session (session_manager w) !! uid) as [sid|] eqn:Hidx.
  - case_decide as Hempty.
    + unfold ret at 1. intros Hrun.
      destruct (Hmiss w eq_refl eq_refl eq_refl Hrun) as (? & ? & ? & ?).
      split_and!; [done..|]. by right.
    + destruct (get_session_cases o sid w)
        as [[Hs ->] | [(s2 & Hs & Hexp & ->) | (s2 & Hs & Hf & ->)]].
      * intros Hrun.
        destruct (Hmiss w eq_refl eq_refl eq_refl Hrun) as (? & ? & ? & ?).
        split_and!; [done..|]. by right.
      * intros Hrun.
        destruct (Hmiss (after_readings 1 w) eq_refl eq_refl eq_refl Hrun)
          as (? & ? & ? & ?).
        split_and!; [done..|]. by right.
      * unfold ret. intros [= <- <-]. simpl.
        rewrite (Hids sid s2 Hs).
        split_and!; [unfold stored; simpl; apply dict_get_set_eq | done..|].
        left. exists s2. split_and!; try done.
        intros k Hk. unfold stored. simpl. by apply dict_get_set_ne.
  - unfold ret at 1. intros Hrun.
    destruct (Hmiss w eq_refl eq_refl eq_refl Hrun) as (? & ? & ? & ?).
    split_and!; [done..|]. by right.
Qed.

(** What [query_processor] has done when it returns a response: the
    response's turn is the last of the session's log. *)
Lemma query_processor_returns o ext uid s um kw w1 resp w2 :
  stored (session_id s) w1 = Some s →
  fresh_at (datetime_now o (ticks w1)) s (session_manager w1) →
  query_processor ext uid s um kw o w1 = (Return resp, w2) →
  ∃ s', stored (session_id s) w2 = Some s'
      ∧ conversation_history s'
        = conversation_history s
            ++ [response_turn (datetime_now o (2 + ticks w1)) um resp].
Proof.
  intros Hs Hf. unfold query_processor.
  destruct (get_contextual_information ext um (get_recent_context s 5))
    as [info|e]; [|done].
  unfold bind at 1.
  match goal with
  | |- (let (a, w') := ?c o w1 in _) = _ → _ =>
      assert (∃ profile ctx,
                c o w1
                = (profile,
                   set_manager
                     (set_sessions
                        (dict_set (session_id s) (set_user_context ctx s)
                           (sessions (session_manager w1)))
                        (session_manager w1)) w1)) as (profile & ctx & ->)
  end.
  { case_decide as Hinfo.
    - exists (user_context s), (user_context s). unfold ret. f_equal.
      replace (set_user_context (user_context s) s) with s by by destruct s.
      rewrite (dict_set_same _ s) by exact Hs.
      by rewrite set_sessions_same, set_manager_same.
    - case_decide as Hctx.
      + eexists _, (user_context s). unfold ret. f_equal.
        replace (set_user_context (user_context s) s) with s by by destruct s.
        rewrite (dict_set_same _ s) by exact Hs.
        by rewrite set_sessions_same, set_manager_same.
      + eexists _, _. unfold bind, get_manager, put_manager, ret. simpl.
        unfold stored in Hs. rewrite Hs. reflexivity. }
  set (w1' := set_manager _ w1).
  destruct (process_query ext _) as [response|e]; [|done].
  unfold bind at 1.
  assert (stored (session_id s) w1' = Some (set_user_context ctx s)) as Hs'.
  { unfold stored, w1'. simpl. apply dict_get_set_eq. }
  rewrite (add_conversation_turn_fresh o _ _ _ _ _ _ w1' _ Hs' Hf).
  destruct (PrimFloat.ltb _ _).
  - destruct (add_conversation_context ext _ _ _ _) as [[]|e]; [|done].
    unfold ret. intros [= <- <-]. eexists. split.
    + unfold stored. simpl. apply dict_get_set_eq.
    + reflexivity.
  - unfold ret. intros [= <- <-]. eexists. split.
    + unfold stored. simpl. apply dict_get_set_eq.
    + reflexivity.
Qed.

Lemma ids_consistent_example_world : ids_consistent example_world.
Proof. intros k s Hs. discriminate Hs. Qed.

(** C3, as the code has it.  [process_user_request] does not append a
    turn: under the user's gate it resolves the session, awaits the
    callback, releases the gate and returns the callback's result, leaving
    the registry exactly as the callback left it.  The turn is appended by
    the callback: when a call with main.py's [query_processor] completes
    with a response, and the session was not expired when the callback
    appended, the session's log is the log the session had when it was
    resolved followed by exactly one turn carrying the response. *)
Theorem process_user_request_leaves_append_to_callback
    (o : Oracle) (uid um : string) (kw : option PyMap) (w : World)
    (s : UserSession) (w1 : World) :
  user_locks w !! uid ≠ Some true →
  ids_consistent w →
  get_or_create_session uid kw o (gate_held uid w) = (Some s, w1) →
  (∀ R (f : UserSession → string → option PyMap → M (result R)) r w2,
     f s um kw o w1 = (r, w2) →
     process_user_request uid um f kw o w = (Completed r, gate_released uid w2)
     ∧ session_manager (gate_released uid w2) = session_manager w2)
  ∧ (∀ ext resp w',
       process_user_request uid um (query_processor ext uid) kw o w
       = (Completed (Return resp), w') →
       fresh_at (datetime_now o (ticks w1)) s (session_manager w1) →
       ∃ s', stored (session_id s) w' = Some s'
           ∧ conversation_history s'
             = conversation_history s
                 ++ [response_turn (datetime_now o (2 + ticks w1)) um resp]).
Proof.
  intros Hfree Hids Hres.
  destruct (get_or_create_session_result o uid kw (gate_held uid w) s w1 Hids Hres)
    as (Hstored & _).
  split.
  - intros R f r w2 Hf. split; [|done].
    rewrite (process_user_request_free o uid um f kw w Hfree), Hres. by rewrite Hf.
  - intros ext resp w' Hrun Hfresh.
    rewrite (process_user_request_free o uid um _ kw w Hfree), Hres in Hrun.
    destruct (query_processor ext uid s um kw o w1) as [r w2] eqn:Hq.
    injection Hrun as -> <-.
    exact (query_processor_returns o ext uid s um kw w1 resp w2 Hstored Hfresh Hq).
Qed.

(** C3, at a concrete input: alice's first message, answered by
    [prompt_collaborators]. *)
Lemma process_user_request_leaves_append_to_callback_witness :
  ∃ s', stored "session-0"
          (process_user_request "alice" "hi"
             (query_processor prompt_collaborators "alice") None
             example_oracle example_world).2 = Some s'
      ∧ length (conversation_history s') = 1.
Proof.
  destruct (process_user_request_leaves_append_to_callback example_oracle
              "alice" "hi" None example_world resolved_session resolved_world)
    as [_ Hcallback].
  - vm_compute. discriminate.
  - exact ids_consistent_example_world.
  - vm_compute. reflexivity.
  - destruct (Hcallback prompt_collaborators
                (mkResponse "hello" None None 0x1.ccccccccccccdp-1 "session-0" false)
                (process_user_request "alice" "hi"
                   (query_processor prompt_collaborators "alice") None
                   example_oracle example_world).2)
      as (s' & Hs' & Hlog).
    + vm_compute. reflexivity.
    + vm_compute. discriminate.
    + exists s'. split; [exact Hs' | by rewrite Hlog].
Defined.

(** C3, counterexample to the claim as stated: a call whose callback
    returns a result without appending completes successfully, and the
    session's turn log has not grown: it is empty. *)
Lemma coordinator_appends_no_turn :
  (process_user_request "alice" "hi" echo_processor None
     example_oracle example_world).1 = Completed (Return "echo: hi")
  ∧ ∃ s, stored "session-0"
           (process_user_request "alice" "hi" echo_processor None
              example_oracle example_world).2 = Some s
       ∧ conversation_history s = [].
Proof.
  split.
  - vm_compute. reflexivity.
  - eexists. split; [vm_compute; reflexivity | reflexivity].
Qed.

(** C4, as the code has it.  When the callback raises,
    [process_user_request] propagates that failure, the user's gate is
    released, and the coordinator itself appends nothing: the registry is
    exactly as the callback left it.  If the callback raised before it
    changed the registry, the resolved session is stored as the lookup left
    it: either the indexed session with only [last_activity] refreshed,
    every other session and the index being untouched, or the session the
    lookup miss created, without turns. *)
Theorem process_user_request_failure {R}
    (o : Oracle) (uid um : string)
    (f : UserSession → string → option PyMap → M (result R))
    (kw : option PyMap) (w : World) (s : UserSession) (w1 : World)
    (e : PyExn) (w2 : World) :
  user_locks w !! uid ≠ Some true →
  ids_consistent w →
  get_or_create_session uid kw o (gate_held uid w) = (Some s, w1) →
  f s um kw o w1 = (Raise e, w2) →
  let r := process_user_request uid um f kw o w in
  r.1 = Completed (Raise e)
  ∧ user_locks r.2 !! uid = Some false
  ∧ session_manager r.2 = session_manager w2
  ∧ (session_manager w2 = session_manager w1 →
     stored (session_id s) r.2 = Some s
     ∧ ((∃ s0, user_to_session (session_manager w) !! uid = Some (session_id s)
             ∧ stored (session_id s) w = Some s0
             ∧ s = set_last_activity (datetime_now o (S (ticks w))) s0
             ∧ (∀ k, k ≠ session_id s → stored k r.2 = stored k w)
             ∧ user_to_session (session_manager r.2)
               = user_to_session (session_manager w))
        ∨ (session_id s = uuid_stream o (draws w)
           ∧ user_id s = uid
           ∧ conversation_history s = []
           ∧ is_active s = true))).
Proof.
  intros Hfree Hids Hres Hf r. subst r.
  rewrite (process_user_request_free o uid um f kw w Hfree), Hres, Hf. simpl.
  split_and!; [done | apply lookup_insert_eq | done |].
  intros Hsame.
  destruct (get_or_create_session_result o uid kw (gate_held uid w) s w1 Hids Hres)
    as (Hstored & _ & _ & Hcases).
  unfold stored in *. simpl in *. rewrite Hsame. split; [exact Hstored|].
  destruct Hcases as [(s0 & Hidx & Hs0 & Hs & Hothers & Hindex) | Hnew].
  - left. exists s0. split_and!; done.
  - by right.
Qed.

(** C4, at a concrete input: alice's first message, with a callback that
    fails at once. *)
Lemma process_user_request_failure_witness :
  (process_user_request "alice" "hi" failing_processor None
     example_oracle example_world).1 = Completed (Raise (Exn "ValueError" "boom"))
  ∧ user_locks
      (process_user_request "alice" "hi" failing_processor None
         example_oracle example_world).2 !! "alice" = Some false
  ∧ stored "session-0"
      (process_user_request "alice" "hi" failing_processor None
         example_oracle example_world).2 = Some resolved_session.
Proof.
  destruct (process_user_request_failure example_oracle "alice" "hi"
              failing_processor None example_world resolved_session
              resolved_world (Exn "ValueError" "boom") resolved_world)
    as (Hres & Hgate & _ & Hsession).
  - vm_compute. discriminate.
  - exact ids_consistent_example_world.
  - vm_compute. reflexivity.
  - reflexivity.
  - split_and!; [exact Hres | exact Hgate | exact (proj1 (Hsession eq_refl))].
Defined.

(** C4, counterexample to the claim as stated: the task is cancelled
    while main.py's callback awaits [add_conversation_context], after the
    callback has appended the turn; the failure reaches the caller and the
    session's log has the turn. *)
Lemma failed_call_can_leave_a_turn :
  (process_user_request "alice" "hi"
     (query_processor cancelling_collaborators "alice") None
     example_oracle example_world).1
  = Completed (Raise (Exn "CancelledError" ""))
  ∧ ∃ s, stored "session-0"
           (process_user_request "alice" "hi"
              (query_processor cancelling_collaborators "alice") None
              example_oracle example_world).2 = Some s
       ∧ length (conversation_history s) = 1.
Proof.
  split.
  - vm_compute. reflexivity.
  - eexists. split; [vm_compute; reflexivity | reflexivity].
Qed.

(** * Further properties *)

(** ** Updating the context *)

Lemma update_user_context_fresh o sid updates w s :
  stored sid w = Some s →
  fresh_at (datetime_now o (ticks w)) s (session_manager w) →
  update_user_context sid updates o w =
  (true,
   set_manager
     (set_sessions
        (dict_set sid
           (mkSession (session_id s) (user_id s) (created_at s)
              (datetime_now o (2 + ticks w)) (conversation_history s)
              (updates ∪ user_context s) (is_active s))
           (sessions (session_manager w)))
        (session_manager w))
     (after_readings 3 w)).
Proof.
  intros Hs Hf. unfold update_user_context, bind.
  rewrite (get_session_fresh o sid w s Hs Hf).
  unfold now, bind, ret, get_manager, put_manager, set_manager, set_sessions,
    after_readings. simpl. by rewrite dict_set_set.
Qed.

(** X1. [update_user_context] succeeds exactly when the session is stored
    and not expired (closed or not).  It then merges the updates into the
    session's context: a key of the updates gets its new value, every other
    key keeps the value it had; [last_activity] is set to the third reading
    of the clock, and the turns, the activity flag, the ids and the index
    are as before.  Every other session keeps its id, owner, times, turns
    and activity flag; of the context of the other sessions nothing is
    stated, since a session created from the same dictionary shares it.
    When it returns [false] the registry is unchanged. *)
Theorem update_user_context_merges
    (o : Oracle) (sid : string) (updates : PyMap) (w : World) :
  let r := update_user_context sid updates o w in
  (r.1 = true ↔
     ∃ s, stored sid w = Some s
        ∧ fresh_at (datetime_now o (ticks w)) s (session_manager w))
  ∧ (∀ s, stored sid w = Some s → r.1 = true →
       ∃ s', stored sid r.2 = Some s'
           ∧ (∀ key, user_context s' !! key
                     = match updates !! key with
                       | Some v => Some v
                       | None => user_context s !! key
                       end)
           ∧ last_activity s' = datetime_now o (2 + ticks w)
           ∧ conversation_history s' = conversation_history s
           ∧ is_active s' = is_active s
           ∧ (session_id s', user_id s', created_at s')
             = (session_id s, user_id s, created_at s)
           ∧ (∀ k, k ≠ sid →
                apart_from_context <$> stored k r.2
                = apart_from_context <$> stored k w)
           ∧ user_to_session (session_manager r.2)
             = user_to_session (session_manager w))
  ∧ (r.1 = false → session_manager r.2 = session_manager w).
Proof.
  intros r. subst r.
  destruct (stored sid w) as [s|] eqn:Hs.
  - destruct (decide (fresh_at (datetime_now o (ticks w)) s (session_manager w)))
      as [Hf|Hexp].
    + rewrite (update_user_context_fresh o sid updates w s Hs Hf). simpl.
      split_and!.
      * split; [intros _; by exists s | done].
      * intros s0 [= <-] _. eexists. split_and!.
        -- unfold stored. simpl. apply dict_get_set_eq.
        -- intros key. simpl. rewrite lookup_union.
           destruct (updates !! key), (user_context s !! key); reflexivity.
        -- done.
        -- done.
        -- done.
        -- done.
        -- intros k Hk. unfold stored. simpl. by rewrite dict_get_set_ne.
        -- done.
      * done.
    + unfold update_user_context, bind.
      rewrite (get_session_expired o sid w s Hs Hexp). simpl. split_and!.
      * split; [done | intros (s' & [= <-] & Hf); done].
      * done.
      * done.
  - unfold update_user_context, bind.
    rewrite (get_session_absent o sid w Hs). simpl. split_and!.
    + split; [done | intros (s' & [=] & _)].
    + done.
    + done.
Qed.

(** ** Windows on the history *)

Lemma slice_last_suffix {A} (n : Z) (l : list A) :
  ∃ older, l = older ++ slice_last n l.
Proof.
  unfold slice_last. destruct (0 <? n)%Z.
  - exists (take (length l - Z.to_nat n) l). by rewrite take_drop.
  - exists (take (Z.to_nat (- n)) l). by rewrite take_drop.
Qed.

Lemma slice_last_positive {A} (n : Z) (l : list A) :
  (0 < n)%Z →
  slice_last n l = drop (length l - Z.to_nat n) l
  ∧ length (slice_last n l) = Z.to_nat n `min` length l.
Proof.
  intros Hn. unfold slice_last.
  replace (0 <? n)%Z with true by (symmetry; by apply Z.ltb_lt).
  split; [done|]. rewrite length_drop. lia.
Qed.

Lemma slice_last_zero {A} (l : list A) : slice_last 0 l = l.
Proof. reflexivity. Qed.

Lemma recent_turns_suffix n h : ∃ older, h = older ++ recent_turns n h.
Proof.
  destruct h as [|t h]; [by exists [] |].
  apply (slice_last_suffix n (t :: h)).
Qed.

Lemma recent_turns_positive n h :
  (0 < n)%Z →
  recent_turns n h = drop (length h - Z.to_nat n) h
  ∧ length (recent_turns n h) = Z.to_nat n `min` length h.
Proof.
  intros Hn. destruct h as [|t h].
  - simpl. split; [done | lia].
  - apply (slice_last_positive n (t :: h) Hn).
Qed.

Lemma get_conversation_history_fresh o sid max_turns w s :
  stored sid w = Some s →
  fresh_at (datetime_now o (ticks w)) s (session_manager w) →
  (get_conversation_history sid max_turns o w).1
  = recent_turns max_turns (conversation_history s).
Proof.
  intros Hs Hf. unfold get_conversation_history, bind.
  rewrite (get_session_fresh o sid w s Hs Hf).
  unfold ret, recent_turns. simpl. by destruct (conversation_history s).
Qed.

(** X2. [get_conversation_history] returns the empty list for a session
    that is absent or expired.  For a stored, unexpired session it returns
    a suffix of the log, in order: the last [min(max_turns, len)] turns
    when [max_turns] is positive, the whole log when [max_turns] is 0
    (Python's [history[-0:]]), and the log without its first [-max_turns]
    turns when [max_turns] is negative. *)
Theorem get_conversation_history_window
    (o : Oracle) (sid : string) (max_turns : Z) (w : World) :
  let r := get_conversation_history sid max_turns o w in
  ((¬ ∃ s, stored sid w = Some s
         ∧ fresh_at (datetime_now o (ticks w)) s (session_manager w)) →
   r.1 = [])
  ∧ (∀ s, stored sid w = Some s →
       fresh_at (datetime_now o (ticks w)) s (session_manager w) →
       (∃ older, conversation_history s = older ++ r.1)
       ∧ ((0 < max_turns)%Z →
          r.1 = drop (length (conversation_history s) - Z.to_nat max_turns)
                  (conversation_history s)
          ∧ length r.1
            = Z.to_nat max_turns `min` length (conversation_history s))
       ∧ (max_turns = 0%Z → r.1 = conversation_history s)
       ∧ ((max_turns < 0)%Z →
          r.1 = drop (Z.to_nat (- max_turns)) (conversation_history s))).
Proof.
  intros r. subst r. split.
  - intros Hnone. unfold get_conversation_history, bind.
    destruct (get_session_cases o sid w)
      as [[Hs ->] | [(s & Hs & Hexp & ->) | (s & Hs & Hf & ->)]]; [done..|].
    exfalso. apply Hnone. by exists s.
  - intros s Hs Hf.
    rewrite (get_conversation_history_fresh o sid max_turns w s Hs Hf).
    split_and!.
    + apply recent_turns_suffix.
    + apply recent_turns_positive.
    + intros ->. by destruct (conversation_history s).
    + intros Hneg. destruct (conversation_history s) as [|t h] eqn:Hh.
      * by rewrite drop_nil.
      * unfold recent_turns, slice_last.
        replace (0 <? max_turns)%Z with false; [done|].
        symmetry. apply Z.ltb_ge. lia.
Qed.

(** X3. [get_recent_context] with a positive [max_turns] yields two
    entries for each of the last [min(max_turns, len)] turns, in order:
    the user's message with role "user", then the reply with role
    "assistant". *)
Theorem get_recent_context_alternates (s : UserSession) (max_turns : Z) :
  (0 < max_turns)%Z →
  let recent := drop (length (conversation_history s) - Z.to_nat max_turns)
                  (conversation_history s) in
  length (get_recent_context s max_turns)
  = 2 * (Z.to_nat max_turns `min` length (conversation_history s))
  ∧ ∀ i turn, recent !! i = Some turn →
      get_recent_context s max_turns !! (2 * i) = Some ("user", user_message turn)
      ∧ get_recent_context s max_turns !! (2 * i + 1)
        = Some ("assistant", bot_response turn).
Proof.
  intros Hn recent. subst recent. unfold get_recent_context.
  replace (match conversation_history s with
           | [] => []
           | turn :: turns => slice_last max_turns (turn :: turns)
           end) with (recent_turns max_turns (conversation_history s))
    by (unfold recent_turns; by destruct (conversation_history s)).
  destruct (recent_turns_positive max_turns (conversation_history s) Hn)
    as [Heq Hlen].
  rewrite Heq in Hlen |- *. rewrite <- Hlen.
  generalize (drop (length (conversation_history s) - Z.to_nat max_turns)
                (conversation_history s)).
  clear. intros l. split.
  - induction l as [|t l IH]; simpl; [done|]. rewrite IH. lia.
  - induction l as [|t l IH]; intros i turn Hi; [done|].
    destruct i as [|i]; simpl in Hi.
    + simplify_eq. done.
    + destruct (IH i turn Hi) as [Hu Ha]. simpl.
      replace (i + S (i + 0)) with (S (2 * i)) by lia.
      replace (i + S (i + 0) + 1) with (S (2 * i + 1)) by lia.
      done.
Qed.

(** X3, at a concrete input. *)
Lemma get_recent_context_alternates_witness :
  length (get_recent_context chatty_session 1) = 2
  ∧ get_recent_context chatty_session 1 !! 0 = Some ("user", "courses?").
Proof.
  destruct (get_recent_context_alternates chatty_session 1) as [Hlen Hturns];
    [lia|].
  split; [exact Hlen|].
  exact (proj1 (Hturns 0 (mkTurn 20 "courses?" "three" None 0 ∅) eq_refl)).
Defined.

(** ** Statistics *)

Lemma dict_get_split {V} (k : string) (v : V) (d : list (string * V)) :
  dict_get k d = Some v →
  ∃ l1 l2, d = l1 ++ (k, v) :: l2
         ∧ ∀ v', dict_set k v' d = l1 ++ (k, v') :: l2.
Proof.
  induction d as [|[k0 v0] d IH]; simpl; [done|].
  destruct (decide (k = k0)) as [->|Hne].
  - intros [= ->]. by exists [], d.
  - intros Hget. destruct (IH Hget) as (l1 & l2 & -> & Hset).
    exists ((k0, v0) :: l1), l2. split; [done|].
    intros v'. simpl. by rewrite Hset.
Qed.

Lemma size_list_to_set_le (l : list string) :
  size (list_to_set l : gset string) ≤ length l.
Proof.
  induction l as [|x l IH].
  - rewrite list_to_set_nil, size_empty. done.
  - rewrite list_to_set_cons, size_union_alt, size_singleton. simpl.
    assert (size (list_to_set l ∖ {[x]} : gset string)
            ≤ size (list_to_set l : gset string)) as Hsub.
    { apply subseteq_size. intros y Hy. by apply elem_of_difference in Hy as [? _]. }
    lia.
Qed.

(** X4. [get_session_stats] is a pure read, and its counts are
    consistent: neither the active sessions nor the distinct users
    outnumber the stored sessions, an empty store gives all zeros, and a
    non-empty store has at least one user. *)
Theorem get_session_stats_bounds (o : Oracle) (w : World) :
  let r := get_session_stats o w in
  r.2 = w
  ∧ total_sessions r.1 = length (sessions (session_manager w))
  ∧ active_sessions r.1 ≤ total_sessions r.1
  ∧ unique_users r.1 ≤ total_sessions r.1
  ∧ (total_sessions r.1 = 0 →
     active_sessions r.1 = 0 ∧ total_conversation_turns r.1 = 0
     ∧ unique_users r.1 = 0)
  ∧ (0 < total_sessions r.1 → 0 < unique_users r.1).
Proof.
  intros r. subst r. unfold get_session_stats, bind, get_manager, ret. simpl.
  set (d := sessions (session_manager w)).
  assert (length (dict_values d) = length d) as Hlen
    by (unfold dict_values; apply length_fmap).
  split_and!.
  - done.
  - done.
  - rewrite <- Hlen. apply length_filter.
  - rewrite <- Hlen, <- (length_map user_id (dict_values d)).
    apply size_list_to_set_le.
  - intros Hz. apply nil_length_inv in Hz. by rewrite Hz.
  - intros Hpos. destruct d as [|[k s] d']; [simpl in Hpos; lia|].
    unfold dict_values. rewrite fmap_cons, map_cons, list_to_set_cons.
    rewrite size_union_alt, size_singleton. lia.
Qed.

(** X5. Closing a stored, active session lowers [active_sessions] by
    exactly one and leaves the other three statistics as they were: the
    session stays in the store. *)
Theorem close_session_lowers_active_count
    (o : Oracle) (sid : string) (w : World) (s : UserSession) :
  stored sid w = Some s →
  is_active s = true →
  let before := (get_session_stats o w).1 in
  let after := (get_session_stats o (close_session sid o w).2).1 in
  active_sessions before = S (active_sessions after)
  ∧ total_sessions after = total_sessions before
  ∧ total_conversation_turns after = total_conversation_turns before
  ∧ unique_users after = unique_users before.
Proof.
  intros Hs Hact before after. subst before after.
  rewrite (close_session_present o sid w s Hs).
  unfold get_session_stats, bind, get_manager, ret. simpl.
  destruct (dict_get_split sid s _ Hs) as (l1 & l2 & Hd & Hset).
  rewrite Hset, Hd. unfold dict_values.
  rewrite !fmap_app, !fmap_cons, !length_app. simpl.
  split_and!; [|done..].
  rewrite !filter_app, !length_app.
  rewrite (filter_cons_True _ s) by done.
  rewrite filter_cons_False by (simpl; congruence).
  simpl. lia.
Qed.

(** X5, at a concrete input: alice's session, open and then closed. *)
Lemma close_session_lowers_active_count_witness :
  active_sessions (get_session_stats example_oracle opened_world).1 = 1
  ∧ active_sessions
      (get_session_stats example_oracle
         (close_session "session-0" example_oracle opened_world).2).1 = 0.
Proof.
  destruct (close_session_lowers_active_count example_oracle "session-0"
              opened_world (mkSession "session-0" "alice" 0 60000000 [] ∅ true))
    as (Hact & _).
  - vm_compute. reflexivity.
  - reflexivity.
  - split; [vm_compute; reflexivity|].
    assert (active_sessions (get_session_stats example_oracle opened_world).1 = 1)
      as Hone by (vm_compute; reflexivity).
    rewrite Hone in Hact. lia.
Defined.

(** ** Creating and looking up *)

(** X6. A session looked up right after [create_session] returned its
    id is found exactly when the clock did not advance by more than the
    TTL between the reading that stamped it and the reading of the lookup;
    what is then returned is the new session: the drawn id, the user, the
    given context (empty when none was given), no turns, active. *)
Theorem create_session_round_trip
    (o : Oracle) (uid : string) (ctx : option PyMap) (w : World) :
  let r1 := create_session uid ctx o w in
  let r2 := get_session r1.1 o r1.2 in
  (is_Some r2.1 ↔
     (datetime_now o (2 + ticks w) - datetime_now o (1 + ticks w)
        ≤ timedelta_minutes (session_timeout_minutes (session_manager w)))%Z)
  ∧ (∀ s, r2.1 = Some s →
       s = mkSession (uuid_stream o (draws w)) uid
             (datetime_now o (ticks w)) (datetime_now o (3 + ticks w))
             [] (default ∅ ctx) true).
Proof.
  intros r1 r2. subst r1 r2. rewrite create_session_eq. simpl.
  set (sid := uuid_stream o (draws w)).
  set (wc := mkWorld _ (user_locks w) (S (S (ticks w))) (S (draws w))).
  assert (stored sid wc = Some (new_session o w uid ctx)) as Hnew.
  { unfold stored, wc. simpl. apply dict_get_set_eq. }
  split.
  - rewrite (get_session_is_Some o sid wc _ Hnew). done.
  - intros s.
    destruct (get_session_cases o sid wc)
      as [[Hs ->] | [(s2 & Hs & Hexp & ->) | (s2 & Hs & Hf & ->)]]; [done..|].
    rewrite Hnew in Hs. simplify_eq. by intros [= <-].
Qed.

(** ** At most one active session per user *)

Lemma active_indexed_update m sid s s' :
  active_indexed m →
  dict_get sid (sessions m) = Some s →
  user_id s' = user_id s →
  is_active s' = is_active s →
  active_indexed (set_sessions (dict_set sid s' (sessions m)) m).
Proof.
  intros Hai Hs Hown Hact k s0. simpl.
  destruct (decide (sid = k)) as [<-|Hne].
  - rewrite dict_get_set_eq. intros [= <-] Hact'. rewrite Hown.
    apply Hai; [done | congruence].
  - rewrite dict_get_set_ne by done. apply Hai.
Qed.

Lemma active_indexed_close m sid s :
  active_indexed m →
  dict_get sid (sessions m) = Some s →
  active_indexed
    (mkManager
       (dict_set sid (set_is_active false s) (sessions m))
       (if decide (user_to_session m !! user_id s = Some sid)
        then delete (user_id s) (user_to_session m)
        else user_to_session m)
       (session_timeout_minutes m) (cleanup_interval_minutes m)).
Proof.
  intros Hai Hs k s0. simpl.
  destruct (decide (sid = k)) as [<-|Hne].
  - rewrite dict_get_set_eq. by intros [= <-].
  - rewrite dict_get_set_ne by done. intros Hs0 Hact0.
    pose proof (Hai k s0 Hs0 Hact0) as Hidx.
    case_decide as Hcur; [|done].
    rewrite lookup_delete_ne; [done|]. intros Heq. rewrite Heq in Hcur. congruence.
Qed.

Lemma active_indexed_create o uid ctx w :
  active_indexed (session_manager w) →
  active_indexed (session_manager (create_session uid ctx o w).2).
Proof.
  intros Hai. rewrite create_session_eq. simpl. intros k s0. simpl.
  destruct (decide (uuid_stream o (draws w) = k)) as [<-|Hne].
  - rewrite dict_get_set_eq. intros [= <-] _. simpl. apply lookup_insert_eq.
  - rewrite dict_get_set_ne by done. rewrite superseded_get.
    destruct (dict_get k (sessions (session_manager w))) as [s1|] eqn:Hs1; [|done].
    intros [= <-]. case_decide as Hold; [done|]. intros Hact.
    pose proof (Hai k s1 Hs1 Hact) as Hidx.
    rewrite lookup_insert_ne; [done|]. intros Heq. rewrite <- Heq in Hidx.
    congruence.
Qed.

Lemma active_indexed_remove m sid :
  active_indexed m → active_indexed (remove_session m sid).
Proof.
  intros Hai k s0. rewrite remove_session_sessions.
  case_decide as Hk; [done|]. intros Hs0 Hact0.
  apply remove_session_index. split; [by apply Hai|]. by intros [? _].
Qed.

Lemma active_indexed_foldl_remove m ks :
  active_indexed m → active_indexed (foldl remove_session m ks).
Proof.
  revert m. induction ks as [|k ks IH]; intros m Hai; cbn [foldl]; [done|].
  by apply IH, active_indexed_remove.
Qed.

Lemma active_indexed_get_session o sid w :
  active_indexed (session_manager w) →
  active_indexed (session_manager (get_session sid o w).2).
Proof.
  intros Hai.
  destruct (get_session_cases o sid w)
    as [[Hs ->] | [(s & Hs & Hexp & ->) | (s & Hs & Hf & ->)]]; simpl; try done.
  by apply (active_indexed_update _ sid s).
Qed.

Lemma run_op_active_indexed o op w :
  active_indexed (session_manager w) →
  active_indexed (session_manager (run_op op o w).2).
Proof.
  intros Hai. destruct op; unfold run_op; rewrite ?bind_ret_tt_snd.
  - by apply active_indexed_create.
  - by apply active_indexed_get_session.
  - unfold get_user_session, bind, get_manager.
    destruct (user_to_session (session_manager w) !! uid) as [sid|]; [|done].
    case_decide; [done|]. by apply active_indexed_get_session.
  - destruct (stored sid w) as [s|] eqn:Hs.
    + destruct (decide (fresh_at (datetime_now o (ticks w)) s (session_manager w)))
        as [Hf|Hexp].
      * rewrite (add_conversation_turn_fresh o sid um br sq conf md w s Hs Hf). simpl.
        by apply (active_indexed_update _ sid s).
      * by rewrite (add_conversation_turn_expired o sid um br sq conf md w s Hs Hexp).
    + by rewrite (add_conversation_turn_absent o sid um br sq conf md w Hs).
  - destruct (update_user_context_cases o sid updates w)
      as [(_ & Hm & Hd) | (s & Hs & Hf & Heq)].
    + by rewrite Hm.
    + rewrite Heq. simpl. by apply (active_indexed_update _ sid s).
  - unfold get_conversation_history, bind.
    pose proof (active_indexed_get_session o sid w Hai) as H.
    destruct (get_session sid o w) as [[s|] w1]; exact H.
  - destruct (stored sid w) as [s|] eqn:Hs.
    + rewrite (close_session_present o sid w s Hs). simpl.
      by apply (active_indexed_close _ sid s).
    + by rewrite (close_session_absent o sid w Hs).
  - done.
  - rewrite cleanup_eq. simpl. by apply active_indexed_foldl_remove.
Qed.

Lemma run_ops_active_indexed o ops w :
  active_indexed (session_manager w) →
  active_indexed (session_manager (run_ops ops o w).2).
Proof.
  revert w. induction ops as [|op ops IH]; intros w Hai; simpl; [done|].
  unfold bind. pose proof (run_op_active_indexed o op w Hai) as H.
  destruct (run_op op o w) as [[] w1]. by apply IH.
Qed.

(** X7. In every state reached from a new [SessionManager] by any
    sequence of registry operations, every active session of the store is
    the one the identity index has for its user; so no user ever has two
    active sessions in the store. *)
Theorem one_active_session_per_user
    (o : Oracle) (timeout interval : Z) (ops : list RegistryOp) :
  let w := (run_ops ops o (World_init timeout interval)).2 in
  active_indexed (session_manager w)
  ∧ ∀ sid1 sid2 s1 s2,
      stored sid1 w = Some s1 → stored sid2 w = Some s2 →
      is_active s1 = true → is_active s2 = true →
      user_id s1 = user_id s2 → sid1 = sid2.
Proof.
  intros w.
  assert (active_indexed (session_manager w)) as Hai.
  { apply run_ops_active_indexed. intros sid s Hs. discriminate Hs. }
  split; [done|].
  intros sid1 sid2 s1 s2 Hs1 Hs2 Ha1 Ha2 Hu.
  pose proof (Hai sid1 s1 Hs1 Ha1) as H1.
  pose proof (Hai sid2 s2 Hs2 Ha2) as H2.
  rewrite Hu in H1. congruence.
Qed.

(** X8. In every reachable state (ids never repeating), what
    [get_user_session] returns for a user is an active session of that
    user, the one the index points at, and it is stored as returned. *)
Theorem get_user_session_active_owner
    (o : Oracle) (timeout interval : Z) (ops : list RegistryOp) (uid : string) :
  Inj (=) (=) (uuid_stream o) →
  let w := (run_ops ops o (World_init timeout interval)).2 in
  ∀ s, (get_user_session uid o w).1 = Some s →
    is_active s = true
    ∧ user_id s = uid
    ∧ user_to_session (session_manager w) !! uid = Some (session_id s)
    ∧ stored (session_id s) (get_user_session uid o w).2 = Some s.
Proof.
  intros Hinj w s.
  assert (world_inv o w) as Hinv.
  { apply (run_ops_inv o ops _ Hinj). apply registry_inv_init. }
  unfold get_user_session, bind, get_manager.
  destruct (user_to_session (session_manager w) !! uid) as [sid|] eqn:Hidx; [|done].
  case_decide; [done|].
  destruct (inv_index _ _ _ Hinv uid sid Hidx) as (s0 & Hs0 & Hact & Hown).
  destruct (get_session_cases o sid w)
    as [[Hs ->] | [(s2 & Hs & Hexp & ->) | (s2 & Hs & Hf & ->)]]; [done..|].
  unfold stored in Hs. rewrite Hs0 in Hs. simplify_eq.
  intros [= <-]. simpl. rewrite (inv_ids _ _ _ Hinv sid s2 Hs0).
  split_and!; try done. unfold stored. simpl. apply dict_get_set_eq.
Qed.

(** X8, at a concrete run: after [example_ops] alice's lookup gives her
    second session. *)
Lemma get_user_session_active_owner_witness :
  ∃ s, (get_user_session "alice" example_oracle
          (run_ops example_ops example_oracle example_world).2).1 = Some s
     ∧ is_active s = true ∧ user_id s = "alice".
Proof.
  eexists. split; [vm_compute; reflexivity|].
  refine (let H := get_user_session_active_owner example_oracle 60 10 example_ops
                     "alice" example_oracle_inj _ _ in
          conj (proj1 H) (proj1 (proj2 H))).
  vm_compute. reflexivity.
Defined.

(** ** Timestamps *)

Lemma times_ok_later o k k' created active h :
  k ≤ k' → times_ok o k created active h → times_ok o k' created active h.
Proof.
  intros Hle ((j & Hj & Hact) & Hrest). split; [|done].
  exists j. split; [lia | done].
Qed.

(** A refresh at reading [j], not earlier than the readings made. *)
Lemma times_ok_refresh o k j created active h :
  monotone_clock o → k ≤ j →
  times_ok o k created active h →
  times_ok o (S j) created (datetime_now o j) h.
Proof.
  intros Hmono Hkj ((j0 & Hj0 & ->) & Hcreated & Hturns & Hsorted).
  assert (datetime_now o j0 ≤ datetime_now o j)%Z as Hle by (apply Hmono; lia).
  split_and!.
  - exists j. split; [lia | done].
  - lia.
  - intros i t Hi. specialize (Hturns i t Hi). lia.
  - done.
Qed.

(** A turn stamped at reading [j1], then a refresh at reading [j2]. *)
Lemma times_ok_append o k j1 j2 created active h turn :
  monotone_clock o → k ≤ j1 → j1 ≤ j2 →
  timestamp turn = datetime_now o j1 →
  times_ok o k created active h →
  times_ok o (S j2) created (datetime_now o j2) (h ++ [turn]).
Proof.
  intros Hmono Hk H12 Hts ((j0 & Hj0 & ->) & Hcreated & Hturns & Hsorted).
  assert (datetime_now o j0 ≤ datetime_now o j1)%Z as Hle1 by (apply Hmono; lia).
  assert (datetime_now o j1 ≤ datetime_now o j2)%Z as Hle2 by (apply Hmono; lia).
  assert (∀ i t, (h ++ [turn]) !! i = Some t →
            (h !! i = Some t ∧ i < length h) ∨ (t = turn ∧ i = length h)) as Hsplit.
  { intros i t Hi. apply lookup_app_Some in Hi as [Hi | [Hge Hi]].
    - left. split; [done|]. by eapply lookup_lt_Some.
    - right. apply list_lookup_singleton_Some in Hi as [Hz ->].
      split; [done | lia]. }
  split_and!.
  - exists j2. split; [lia | done].
  - lia.
  - intros i t Hi. destruct (Hsplit i t Hi) as [[Hi' _] | [-> _]].
    + specialize (Hturns i t Hi'). lia.
    + lia.
  - intros i j ti tj Hij Hi Hj.
    destruct (Hsplit i ti Hi) as [[Hi' Hil] | [-> Hil]];
      destruct (Hsplit j tj Hj) as [[Hj' Hjl] | [-> Hjl]].
    + by apply (Hsorted i j).
    + specialize (Hturns i ti Hi'). lia.
    + lia.
    + lia.
Qed.

Lemma times_inv_set o w w' sid s' :
  times_inv o w →
  ticks w ≤ ticks w' →
  sessions (session_manager w') = dict_set sid s' (sessions (session_manager w)) →
  session_times_ok o (ticks w') s' →
  times_inv o w'.
Proof.
  intros Hinv Hle Hset Hok k s. unfold stored. rewrite Hset.
  destruct (decide (sid = k)) as [<-|Hne].
  - rewrite dict_get_set_eq. by intros [= <-].
  - rewrite dict_get_set_ne by done. intros Hs.
    apply (times_ok_later o (ticks w)); [done|]. exact (Hinv k s Hs).
Qed.

Lemma times_inv_subset o w w' :
  times_inv o w →
  ticks w ≤ ticks w' →
  (∀ k s, stored k w' = Some s → stored k w = Some s) →
  times_inv o w'.
Proof.
  intros Hinv Hle Hsub k s Hs.
  apply (times_ok_later o (ticks w)); [done|]. exact (Hinv k s (Hsub k s Hs)).
Qed.

Lemma get_session_times o sid w :
  monotone_clock o → times_inv o w → times_inv o (get_session sid o w).2.
Proof.
  intros Hmono Hinv.
  destruct (get_session_cases o sid w)
    as [[Hs ->] | [(s & Hs & Hexp & ->) | (s & Hs & Hf & ->)]]; simpl.
  - done.
  - apply (times_inv_subset o w); [done | simpl; lia | done].
  - eapply (times_inv_set o w _ sid); [done | simpl; lia | reflexivity |].
    apply (times_ok_refresh o (ticks w) (S (ticks w))
             (created_at s) (last_activity s)); [done | lia |].
    exact (Hinv sid s Hs).
Qed.

Lemma run_op_times o op w :
  monotone_clock o → times_inv o w → times_inv o (run_op op o w).2.
Proof.
  intros Hmono Hinv. destruct op; unfold run_op; rewrite ?bind_ret_tt_snd.
  - rewrite create_session_eq. simpl. intros k s. unfold stored. simpl.
    destruct (decide (uuid_stream o (draws w) = k)) as [<-|Hne].
    + rewrite dict_get_set_eq. intros [= <-].
      unfold session_times_ok, new_session. simpl. split_and!.
      * exists (S (ticks w)). split; [lia | done].
      * apply Hmono. lia.
      * done.
      * done.
    + rewrite dict_get_set_ne by done. rewrite superseded_get.
      destruct (dict_get k (sessions (session_manager w))) as [s1|] eqn:Hs1; [|done].
      intros [= <-].
      assert (session_times_ok o (S (S (ticks w))) s1) as Hok.
      { apply (times_ok_later o (ticks w)); [lia|]. exact (Hinv k s1 Hs1). }
      by case_decide.
  - by apply get_session_times.
  - unfold get_user_session, bind, get_manager.
    destruct (user_to_session (session_manager w) !! uid) as [sid|]; [|done].
    case_decide; [done|]. by apply get_session_times.
  - destruct (stored sid w) as [s|] eqn:Hs.
    + destruct (decide (fresh_at (datetime_now o (ticks w)) s (session_manager w)))
        as [Hf|Hexp].
      * rewrite (add_conversation_turn_fresh o sid um br sq conf md w s Hs Hf).
        eapply (times_inv_set o w _ sid); [done | simpl; lia | reflexivity |].
        apply (times_ok_append o (ticks w) (2 + ticks w) (3 + ticks w)
                 (created_at s) (last_activity s));
          [done | lia | lia | done |]. exact (Hinv sid s Hs).
      * rewrite (add_conversation_turn_expired o sid um br sq conf md w s Hs Hexp).
        apply (times_inv_subset o w); [done | simpl; lia | done].
    + by rewrite (add_conversation_turn_absent o sid um br sq conf md w Hs).
  - destruct (stored sid w) as [s|] eqn:Hs.
    + destruct (decide (fresh_at (datetime_now o (ticks w)) s (session_manager w)))
        as [Hf|Hexp].
      * rewrite (update_user_context_fresh o sid updates w s Hs Hf).
        eapply (times_inv_set o w _ sid); [done | simpl; lia | reflexivity |].
        apply (times_ok_refresh o (ticks w) (2 + ticks w)
                 (created_at s) (last_activity s)); [done | lia |].
        exact (Hinv sid s Hs).
      * unfold update_user_context, bind.
        rewrite (get_session_expired o sid w s Hs Hexp). simpl.
        apply (times_inv_subset o w); [done | simpl; lia | done].
    + unfold update_user_context, bind.
      by rewrite (get_session_absent o sid w Hs).
  - unfold get_conversation_history, bind.
    pose proof (get_session_times o sid w Hmono Hinv) as H.
    destruct (get_session sid o w) as [[s|] w1]; exact H.
  - destruct (stored sid w) as [s|] eqn:Hs.
    + rewrite (close_session_present o sid w s Hs).
      eapply (times_inv_set o w _ sid); [done | simpl; lia | reflexivity |].
      exact (Hinv sid s Hs).
    + by rewrite (close_session_absent o sid w Hs).
  - done.
  - rewrite cleanup_eq.
    apply (times_inv_subset o w); [done | simpl; lia |].
    intros k s. unfold stored. simpl. rewrite foldl_remove_sessions.
    by case_decide.
Qed.

Lemma run_ops_times o ops w :
  monotone_clock o → times_inv o w → times_inv o (run_ops ops o w).2.
Proof.
  intros Hmono. revert w. induction ops as [|op ops IH]; intros w Hinv; simpl.
  - done.
  - unfold bind. pose proof (run_op_times o op w Hmono Hinv) as H.
    destruct (run_op op o w) as [[] w1]. by apply IH.
Qed.

Lemma example_oracle_monotone : monotone_clock example_oracle.
Proof. intros i j Hij. simpl. lia. Qed.

(** X9. With a clock that never goes back, in every state reached from a
    new [SessionManager] by registry operations, every stored session has
    [created_at <= last_activity], its [last_activity] is not later than the
    next reading of the clock (so the elapsed time an expiry check computes
    is never negative), every turn is stamped no later than
    [last_activity], and the turns of the log are in the order of their
    timestamps. *)
Theorem session_times_chronological
    (o : Oracle) (timeout interval : Z) (ops : list RegistryOp) :
  monotone_clock o →
  let w := (run_ops ops o (World_init timeout interval)).2 in
  ∀ sid s, stored sid w = Some s →
    (created_at s ≤ last_activity s)%Z
    ∧ (last_activity s ≤ datetime_now o (ticks w))%Z
    ∧ (∀ i t, conversation_history s !! i = Some t →
         (timestamp t ≤ last_activity s)%Z)
    ∧ (∀ i j ti tj, i ≤ j →
         conversation_history s !! i = Some ti →
         conversation_history s !! j = Some tj →
         (timestamp ti ≤ timestamp tj)%Z).
Proof.
  intros Hmono w sid s Hs.
  assert (times_inv o w) as Hinv.
  { apply (run_ops_times o ops _ Hmono). intros k s0 Hs0. discriminate Hs0. }
  destruct (Hinv sid s Hs) as ((j & Hj & Hact) & Hcreated & Hturns & Hsorted).
  split_and!; try done.
  rewrite Hact. apply Hmono. lia.
Qed.

(** X9, at a concrete run. *)
Lemma session_times_chronological_witness :
  monotone_clock example_oracle
  ∧ ∀ sid s,
      stored sid (run_ops example_ops example_oracle example_world).2 = Some s →
      (created_at s ≤ last_activity s)%Z.
Proof.
  split; [exact example_oracle_monotone|].
  intros sid s Hs.
  exact (proj1 (session_times_chronological example_oracle 60 10 example_ops
                  example_oracle_monotone sid s Hs)).
Defined.

(** ** The gate of a user *)






(** X11. [cleanup_user_locks] leaves the registry alone and keeps a gate,
    in the state it is in, exactly when its user has an active session
    among the stored ones; every other gate is removed, held or not. *)
Theorem cleanup_user_locks_keeps_active_users (o : Oracle) (w : World) :
  let w' := (cleanup_user_locks o w).2 in
  session_manager w' = session_manager w
  ∧ ∀ uid b,
      user_locks w' !! uid = Some b
      ↔ user_locks w !! uid = Some b
        ∧ ∃ sid s, (sid, s) ∈ sessions (session_manager w)
                 ∧ is_active s = true ∧ user_id s = uid.
Proof.
  intros w'. subst w'. unfold cleanup_user_locks. simpl. split; [done|].
  intros uid b. rewrite map_lookup_filter_Some. simpl.
  rewrite elem_of_list_to_set, list_elem_of_fmap.
  split; intros [Hl Hact]; (split; [done|]).
  - destruct Hact as (s & -> & Hin). apply list_elem_of_filter in Hin as [Hact Hin].
    unfold dict_values in Hin. apply list_elem_of_fmap in Hin as ([sid s'] & -> & Hin).
    by exists sid, s'.
  - destruct Hact as (sid & s & Hin & Hact & <-). exists s. split; [done|].
    apply list_elem_of_filter. split; [done|].
    unfold dict_values. apply list_elem_of_fmap. by exists (sid, s).
Qed.



(** ** The callers of main.py *)

Lemma world_inv_opened_world : world_inv example_oracle opened_world.
Proof.
  unfold opened_world. apply (registry_inv_create _ _ _ _ example_oracle_inj).
  apply registry_inv_init.
Qed.

(** The lookup by user, case by case, in a registry that keeps its
    invariant. *)
Lemma get_user_session_cases o uid w :
  world_inv o w →
  ((get_user_session uid o w).1 = None
   ∧ session_manager (get_user_session uid o w).2 = session_manager w
   ∧ ¬ (∃ sid s, user_to_session (session_manager w) !! uid = Some sid
               ∧ sid ≠ ""
               ∧ stored sid w = Some s
               ∧ fresh_at (datetime_now o (ticks w)) s (session_manager w)))
  ∨ (∃ sid s,
       user_to_session (session_manager w) !! uid = Some sid
       ∧ sid ≠ ""
       ∧ stored sid w = Some s
       ∧ fresh_at (datetime_now o (ticks w)) s (session_manager w)
       ∧ session_id s = sid ∧ user_id s = uid ∧ is_active s = true
       ∧ get_user_session uid o w =
         (Some (set_last_activity (datetime_now o (S (ticks w))) s),
          set_manager
            (set_sessions
               (dict_set sid (set_last_activity (datetime_now o (S (ticks w))) s)
                  (sessions (session_manager w)))
               (session_manager w))
            (after_readings 2 w))).
Proof.
  intros Hinv. unfold get_user_session, bind, get_manager.
  destruct (user_to_session (session_manager w) !! uid) as [sid|] eqn:Hidx.
  - case_decide as Hempty.
    + left. split_and!; [done..|]. intros (sid' & s & [= <-] & Hne & _). done.
    + destruct (inv_index _ _ _ Hinv uid sid Hidx) as (s0 & Hs0 & Hact & Hown).
      destruct (get_session_cases o sid w)
        as [[Hs Heq] | [(s & Hs & Hexp & Heq) | (s & Hs & Hf & Heq)]];
        rewrite Heq; simpl.
      * left. split_and!; [done..|].
        intros (sid' & s & [= <-] & _ & Hs' & _). congruence.
      * left. split_and!; [done..|].
        intros (sid' & s' & [= <-] & _ & Hs' & Hf). rewrite Hs in Hs'.
        by simplify_eq.
      * right. exists sid, s. unfold stored in Hs. rewrite Hs0 in Hs. simplify_eq.
        split_and!; try done. by apply (inv_ids _ _ _ Hinv).
  - left. split_and!; [done..|]. by intros (sid & s & [=] & _).
Qed.

(** X13. In a registry that keeps its invariant, [close_user_session]
    returns [true] exactly when the user's indexed session is stored and
    not expired.  The user then has no index entry any more, the session is
    still stored but inactive, and a following [get_user_session] finds
    nothing.  When it returns [false] the registry is unchanged: in
    particular an expired session cannot be closed through this call and
    stays active and indexed until the sweep. *)
Theorem close_user_session_closes (o : Oracle) (uid : string) (w : World) :
  world_inv o w →
  let r := close_user_session uid o w in
  (r.1 = true ↔
     ∃ sid s, user_to_session (session_manager w) !! uid = Some sid
            ∧ sid ≠ ""
            ∧ stored sid w = Some s
            ∧ fresh_at (datetime_now o (ticks w)) s (session_manager w))
  ∧ (r.1 = true →
       user_to_session (session_manager r.2) !! uid = None
       ∧ (∃ sid s', user_to_session (session_manager w) !! uid = Some sid
                  ∧ stored sid r.2 = Some s'
                  ∧ is_active s' = false)
       ∧ (get_user_session uid o r.2).1 = None)
  ∧ (r.1 = false → session_manager r.2 = session_manager w).
Proof.
  intros Hinv r. subst r. unfold close_user_session, bind.
  destruct (get_user_session_cases o uid w Hinv)
    as [(Hnone & Hsame & Hnot) | (sid & s & Hidx & Hne & Hs & Hf & Hid & Hown & Hact & Heq)].
  - destruct (get_user_session uid o w) as [[s|] w1]; simpl in *; [done|].
    split_and!; [|done..]. split; [done | intros H; by destruct Hnot].
  - rewrite Heq. simpl. rewrite Hid.
    set (s' := set_last_activity (datetime_now o (S (ticks w))) s).
    set (w1 := set_manager _ (after_readings 2 w)).
    assert (stored sid w1 = Some s') as Hs1.
    { unfold stored, w1. simpl. apply dict_get_set_eq. }
    rewrite (close_session_present o sid w1 s' Hs1). simpl.
    rewrite Hown, decide_True by done.
    split_and!.
    + split; [intros _; by exists sid, s | done].
    + intros _. split_and!.
      * apply lookup_delete_eq.
      * exists sid. eexists. split_and!; [done | |].
        -- unfold stored. simpl. apply dict_get_set_eq.
        -- done.
      * unfold get_user_session, bind, get_manager. simpl.
        by rewrite lookup_delete_eq.
    + done.
Qed.

(** X13, at a concrete input: alice closes her open session. *)
Lemma close_user_session_closes_witness :
  (close_user_session "alice" example_oracle opened_world).1 = true
  ∧ user_to_session
      (session_manager (close_user_session "alice" example_oracle opened_world).2)
      !! "alice" = None.
Proof.
  destruct (close_user_session_closes example_oracle "alice" opened_world
              world_inv_opened_world) as (_ & Hclosed & _).
  assert ((close_user_session "alice" example_oracle opened_world).1 = true)
    as Htrue by (vm_compute; reflexivity).
  split; [exact Htrue | exact (proj1 (Hclosed Htrue))].
Defined.



(** X15. Once the chatbot is initialized, [process_user_query] adds
    nothing to the effect of [process_user_request] on the world, and,
    whatever the class hierarchy, it lets through no exception of a class
    that derives from [Exception]: such a failure (a callback error, or the
    [RuntimeError] of a session that could not be resolved) becomes the
    apology dictionary carrying [str(e)], with no session id.  An exception
    of any other class, such as a cancellation or a [BaseExceptionGroup],
    reaches the caller as it is.  A response is copied field by field,
    without an ["error"] key. *)
Theorem process_user_query_contains_exceptions
    (h : Hierarchy) (o : Oracle) (ext : Collaborators)
    (initialize : M (result unit))
    (uid user_query : string) (user_context : option PyMap) (w : World) :
  let r :=
    process_user_query h ext true initialize uid user_query user_context o w in
  let inner :=
    process_user_request uid user_query (query_processor ext uid) user_context o w in
  r.2 = inner.2
  ∧ (∀ e, r.1 = Completed (Raise e) →
       is_Exception h e = false ∧ inner.1 = Completed (Raise e))
  ∧ (∀ e, inner.1 = Completed (Raise e) →
       if is_Exception h e
       then r.1 = Completed (Return (apology e))
       else r.1 = Completed (Raise e))
  ∧ (∀ response, inner.1 = Completed (Return response) →
       r.1 = Completed (Return
               (mkQueryReply (response_text response) (resp_sql_query response)
                  (resp_confidence response) (Some (resp_session_id response))
                  (requires_followup response) (resp_data response) None)))
  ∧ (inner.1 = Suspended ↔ r.1 = Suspended)
  ∧ (h "RuntimeError" = true →
     user_locks w !! uid ≠ Some true →
     (get_or_create_session uid user_context o (gate_held uid w)).1 = None →
     r.1 = Completed (Return (apology (RuntimeError
             ("Could not create or retrieve session for user " +:+ uid))))).
Proof.
  intros r inner. subst r inner. unfold process_user_query, bind, ret. simpl.
  split_and!.
  - destruct (process_user_request _ _ _ _ o w) as [[[resp|e]|] w1]; simpl;
      [done | by destruct (is_Exception h e) | done].
  - intros e.
    destruct (process_user_request _ _ _ _ o w) as [[[resp|e']|] w1]; simpl;
      [done | | done].
    destruct (is_Exception h e') eqn:He; simpl; [done|]. by intros [= <-].
  - intros e.
    destruct (process_user_request _ _ _ _ o w) as [[[resp|e']|] w1]; simpl;
      [done | | done].
    intros [= <-]. by destruct (is_Exception h e').
  - intros response.
    destruct (process_user_request _ _ _ _ o w) as [[[resp|e']|] w1]; simpl;
      [by intros [= <-] | done | done].
  - destruct (process_user_request _ _ _ _ o w) as [[[resp|e']|] w1]; simpl;
      [done | by destruct (is_Exception h e') | done].
  - intros Hrt Hfree Hnone.
    rewrite (process_user_request_free o uid user_query _ user_context w Hfree).
    destruct (get_or_create_session uid user_context o (gate_held uid w))
      as [[s|] w1]; simpl in *; [done|]. by rewrite Hrt.
Qed.

(** ** Validation of generated SQL *)

Lemma prefix_cons_inv a s1 b s2 :
  String.prefix (String a s1) (String b s2) = true →
  a = b ∧ String.prefix s1 s2 = true.
Proof.
  cbn [String.prefix]. destruct (Ascii.ascii_dec a b); [done | discriminate].
Qed.

Lemma prefix_cons_ne a s1 b s2 :
  a ≠ b → String.prefix (String a s1) (String b s2) = false.
Proof.
  intros Hne. cbn [String.prefix]. by destruct (Ascii.ascii_dec a b).
Qed.

(** A text that starts with [SELECT] starts with none of the dangerous
    keywords. *)
Lemma select_not_dangerous (text : string) :
  startswith text "SELECT" = true →
  existsb (startswith text) dangerous_keywords = false.
Proof.
  intros Hsel. destruct text as [|b rest]; [discriminate Hsel|].
  unfold startswith in *. apply prefix_cons_inv in Hsel as [<- _].
  cbn [existsb dangerous_keywords].
  rewrite !prefix_cons_ne by discriminate. reflexivity.
Qed.

Lemma validate_sql_query_eq (query : string) :
  validate_sql_query query
  = startswith (str_strip (str_upper query)) "SELECT".
Proof.
  unfold validate_sql_query.
  set (query_upper := str_strip (str_upper query)).
  destruct (startswith query_upper "SELECT") eqn:Hsel.
  - by rewrite select_not_dangerous.
  - cbn [negb]. by destruct (existsb _ _).
Qed.

(** X16. On ASCII text [validate_sql_query] is exactly the test that
    the upper-cased, stripped query starts with [SELECT].  The loop over
    the dangerous keywords never decides anything: a query whose text
    starts with one of them does not start with [SELECT], so it is
    rejected by the second test as well. *)
Theorem validate_sql_query_is_prefix_check (query : string) :
  isascii query = true →
  validate_sql_query query
  = startswith (str_strip (str_upper query)) "SELECT"
  ∧ ∀ keyword, keyword ∈ dangerous_keywords →
      startswith (str_strip (str_upper query)) keyword = true →
      startswith (str_strip (str_upper query)) "SELECT" = false.
Proof.
  intros _. split; [apply validate_sql_query_eq|].
  intros keyword Hin Hstarts.
  destruct (startswith (str_strip (str_upper query)) "SELECT") eqn:Hsel; [|done].
  apply select_not_dangerous in Hsel.
  assert (existsb (startswith (str_strip (str_upper query))) dangerous_keywords
          = true) as Hex.
  { apply existsb_exists. exists keyword. split; [|done].
    by apply list_elem_of_In. }
  congruence.
Qed.

(** X16, at a concrete input: a query that starts with a dangerous
    keyword, and one that starts with [select]. *)
Lemma validate_sql_query_is_prefix_check_witness :
  validate_sql_query "  drop table users" = false
  ∧ validate_sql_query "  Select id from users " = true.
Proof.
  destruct (validate_sql_query_is_prefix_check "  drop table users" eq_refl)
    as [Hdrop _].
  destruct (validate_sql_query_is_prefix_check "  Select id from users " eq_refl)
    as [Hselect _].
  split.
  - exact (eq_trans Hdrop eq_refl).
  - exact (eq_trans Hselect eq_refl).
Defined.

Lemma str_upper_app (a b : string) :
  str_upper (a +:+ b) = str_upper a +:+ str_upper b.
Proof. induction a as [|c a IH]; simpl; [done|]. by rewrite IH. Qed.

Lemma prefix_cons_eq a s1 s2 :
  String.prefix (String a s1) (String a s2) = String.prefix s1 s2.
Proof.
  cbn [String.prefix]. by destruct (Ascii.ascii_dec a a).
Qed.

Lemma prefix_empty s : String.prefix "" s = true.
Proof. by destruct s. Qed.

Lemma str_app_cons (a : Ascii.ascii) (s t : string) :
  String a s +:+ t = String a (s +:+ t).
Proof. reflexivity. Qed.

Lemma str_app_nil (t : string) : "" +:+ t = t.
Proof. reflexivity. Qed.

Lemma str_lstrip_cons (a : Ascii.ascii) (s : string) :
  is_space a = false → str_lstrip (String a s) = String a s.
Proof. intros Ha. simpl. by rewrite Ha. Qed.

Lemma str_rstrip_cons (a : Ascii.ascii) (s : string) :
  is_space a = false → str_rstrip (String a s) = String a (str_rstrip s).
Proof. intros Ha. simpl. destruct (str_rstrip s); [by rewrite Ha | done]. Qed.

(** X17. Only the first keyword is checked: a query made of any
    spelling of [select] in upper or lower case followed by any text at all
    is accepted, whatever statements that text contains. *)
Theorem validate_sql_query_accepts_select_prefix (head rest : string) :
  str_upper head = "SELECT" →
  validate_sql_query (head +:+ rest) = true.
Proof.
  intros Hhead. rewrite validate_sql_query_eq.
  rewrite str_upper_app, Hhead. unfold str_strip.
  rewrite !str_app_cons, str_app_nil.
  rewrite str_lstrip_cons by reflexivity.
  rewrite !str_rstrip_cons by reflexivity.
  unfold startswith. rewrite !prefix_cons_eq. apply prefix_empty.
Qed.

(** X17, at a concrete input. *)
Lemma validate_sql_query_accepts_select_prefix_witness :
  validate_sql_query "select 1; DROP TABLE users" = true.
Proof.
  exact (validate_sql_query_accepts_select_prefix "select" " 1; DROP TABLE users"
           eq_refl).
Defined.

(** ** The pipeline *)

Lemma pipeline_process_query_executed h p qc :
  (pipeline_process_query h p qc).2 = (pipeline_try p qc).2.
Proof.
  unfold pipeline_process_query.
  destruct (pipeline_try p qc) as [[resp|e] executed]; [done|].
  by destruct (is_Exception h e).
Qed.

(** What the [try] block hands to [execute_query] is a validated query
    that the language model generated for the intent it found. *)
Lemma pipeline_try_executed p qc q :
  q ∈ (pipeline_try p qc).2 →
  validate_sql_query q = true
  ∧ ∃ intent_data,
      analyze_intent p qc = Return intent_data
      ∧ generate_sql_query p qc intent_data (schema_context p) = Return (Some q).
Proof.
  unfold pipeline_try.
  destruct (analyze_intent p qc) as [intent_data|e] eqn:Hintent; simpl;
    [|by intros ?%elem_of_nil].
  destruct (truthy _); simpl.
  - destruct (generate_sql_query p qc intent_data (schema_context p))
      as [[sql|]|e] eqn:Hgen; simpl.
    + destruct (negb (String.eqb sql "") && validate_sql_query sql) eqn:Hok; simpl.
      * apply andb_true_iff in Hok as [_ Hvalid].
        assert (q ∈ [sql] →
                validate_sql_query q = true
                ∧ ∃ intent_data0,
                    Return intent_data = Return intent_data0
                    ∧ generate_sql_query p qc intent_data0 (schema_context p)
                      = Return (Some q)) as Hlog.
        { intros ->%list_elem_of_singleton. split; [done|]. by exists intent_data. }
        destruct (execute_query p sql) as [qr|e]; simpl; [|done].
        by destruct (generate_response p qc _ _).
      * destruct (generate_response p qc _ _); simpl; by intros ?%elem_of_nil.
    + destruct (generate_response p qc _ _); simpl; by intros ?%elem_of_nil.
    + by intros ?%elem_of_nil.
  - destruct (generate_response p qc _ _); simpl; by intros ?%elem_of_nil.
Qed.

Lemma pipeline_try_executed_length p qc : length (pipeline_try p qc).2 ≤ 1.
Proof.
  unfold pipeline_try.
  destruct (analyze_intent p qc) as [intent_data|e]; simpl; [|lia].
  destruct (truthy _); simpl.
  - destruct (generate_sql_query p qc intent_data (schema_context p))
      as [[sql|]|e]; simpl; [| |lia].
    + destruct (negb (String.eqb sql "") && validate_sql_query sql); simpl.
      * destruct (execute_query p sql) as [qr|e]; simpl; [|lia].
        destruct (generate_response p qc _ _); simpl; lia.
      * destruct (generate_response p qc _ _); simpl; lia.
    + destruct (generate_response p qc _ _); simpl; lia.
  - destruct (generate_response p qc _ _); simpl; lia.
Qed.

(** X18. When the language model generates ASCII text, [process_query]
    hands at most one query to the database, and only the query that was
    generated for the intent found, after [validate_sql_query] accepted
    it: what reaches [execute_query] starts with [SELECT] once upper-cased
    and stripped. *)
Theorem pipeline_executes_only_validated
    (h : Hierarchy) (p : PipelineParts) (qc : QueryContext) :
  generates_ascii p →
  let executed := (pipeline_process_query h p qc).2 in
  length executed ≤ 1
  ∧ ∀ q, q ∈ executed →
      isascii q = true
      ∧ validate_sql_query q = true
      ∧ startswith (str_strip (str_upper q)) "SELECT" = true
      ∧ ∃ intent_data,
          analyze_intent p qc = Return intent_data
          ∧ generate_sql_query p qc intent_data (schema_context p)
            = Return (Some q).
Proof.
  intros Hascii executed. subst executed.
  rewrite pipeline_process_query_executed. split.
  - apply pipeline_try_executed_length.
  - intros q Hq.
    destruct (pipeline_try_executed p qc q Hq) as (Hvalid & intent_data & Hi & Hg).
    split_and!.
    + exact (Hascii qc intent_data (schema_context p) q Hg).
    + exact Hvalid.
    + by rewrite <- validate_sql_query_eq.
    + by exists intent_data.
Qed.

Lemma generates_ascii_example_parts : generates_ascii example_parts.
Proof. intros qc intent_data schema_info sql [= <-]. reflexivity. Qed.

(** X18, at a concrete input: the generated query is executed whole,
    with the statement that follows the [select]. *)
Lemma pipeline_executes_only_validated_witness :
  (pipeline_process_query builtin_hierarchy example_parts example_query).2
  = ["select 1; DROP TABLE users"]
  ∧ validate_sql_query "select 1; DROP TABLE users" = true.
Proof.
  assert ((pipeline_process_query builtin_hierarchy example_parts example_query).2
          = ["select 1; DROP TABLE users"]) as Hlog by (vm_compute; reflexivity).
  destruct (pipeline_executes_only_validated builtin_hierarchy example_parts
              example_query generates_ascii_example_parts) as [_ Hall].
  split; [exact Hlog|].
  apply (Hall "select 1; DROP TABLE users").
  rewrite Hlog. by apply list_elem_of_singleton.
Defined.






(** ** Context from the knowledge base *)

Lemma context_lines_budget results current max_context_length :
  context_lines results current max_context_length ≠ [] →
  (current
   + Z.of_nat (sum_list (String.length
                           <$> context_lines results current max_context_length))
   ≤ max_context_length)%Z.
Proof.
  revert current. induction results as [|r results IH]; intros current; simpl;
    [done|].
  destruct (PrimFloat.ltb _ _); [|apply IH].
  destruct (_ <=? _)%Z eqn:Hfit; [|done]. intros _.
  apply Z.leb_le in Hfit. rewrite fmap_cons. simpl.
  destruct (context_lines results _ max_context_length) as [|l ls] eqn:Hrest.
  - simpl. lia.
  - assert (l :: ls ≠ []) as Hne by done. rewrite <- Hrest in Hne |- *.
    specialize (IH _ Hne). lia.
Qed.

Lemma total_length_cons line lines :
  total_length (line :: lines)
  = (Z.of_nat (String.length line) + total_length lines)%Z.
Proof. unfold total_length. rewrite fmap_cons. simpl. lia. Qed.

(** The loop takes the relevant results in order and stops at the first
    whose line does not fit. *)
Lemma context_lines_split results current max_context_length :
  ∃ rest,
    context_line <$> filter relevant results
    = context_lines results current max_context_length ++ rest
    ∧ match rest with
      | [] => True
      | line :: _ =>
          (max_context_length
           < current
             + total_length (context_lines results current max_context_length)
             + Z.of_nat (String.length line))%Z
      end.
Proof.
  revert current. induction results as [|r results IH]; intros current.
  - by exists [].
  - cbn [context_lines].
    destruct (PrimFloat.ltb _ (sr_relevance_score r)) eqn:Hrel.
    + rewrite filter_cons_True by exact Hrel. rewrite fmap_cons.
      fold (context_line r).
      destruct (_ <=? _)%Z eqn:Hfit.
      * destruct (IH (current + Z.of_nat (String.length (context_line r)))%Z)
          as (rest & Heq & Hstop).
        exists rest. split; [by rewrite Heq|].
        destruct rest as [|line rest]; [done|].
        rewrite total_length_cons. lia.
      * apply Z.leb_gt in Hfit. eexists. split; [reflexivity|].
        change (total_length []) with 0%Z. lazy beta iota. lia.
    + rewrite filter_cons_False by (unfold relevant; congruence). apply IH.
Qed.

(** X20. [get_contextual_information] answers with the empty string when
    the search raises an exception of a class under [Exception], and lets
    any other exception through.  For results of ASCII content it takes the
    results of relevance above 0.3 in the order of the search and includes
    the line of each one up to, and not including, the first whose line no
    longer fits: the lengths of the included lines add up to at most
    [max_context_length] (the header and the line feeds are not counted),
    and the first line left out, if there is one, would exceed it.  The
    answer is the header followed by the included lines, or the empty
    string when no line is included; the conversation history plays no
    part. *)
Theorem kb_context_within_budget (h : Hierarchy)
    (search_knowledge : string → Z → result (list SearchResult))
    (user_query : string) (conversation_history : list (string * string))
    (max_context_length : Z) :
  let answer :=
    kb_get_contextual_information h search_knowledge user_query
      conversation_history max_context_length in
  (∀ e, search_knowledge user_query 3%Z = Raise e →
     answer = if is_Exception h e then Return "" else Raise e)
  ∧ ∀ results, search_knowledge user_query 3%Z = Return results →
      (∀ r, r ∈ results → isascii (sr_content r) = true) →
      ∃ lines rest,
        context_line <$> filter relevant results = lines ++ rest
        ∧ (lines ≠ [] → (total_length lines ≤ max_context_length)%Z)
        ∧ match rest with
          | [] => True
          | line :: _ =>
              (max_context_length
               < total_length lines + Z.of_nat (String.length line))%Z
          end
        ∧ answer
          = Return (match lines with
                    | [] => ""
                    | _ => String.concat newline
                             ("Relevant Totara LMS context:" :: lines)
                    end).
Proof.
  intros answer. subst answer. unfold kb_get_contextual_information. split.
  - by intros e ->.
  - intros results -> _.
    destruct (context_lines_split results 0 max_context_length)
      as (rest & Heq & Hstop).
    exists (context_lines results 0 max_context_length), rest. split_and!.
    + exact Heq.
    + intros Hne. pose proof (context_lines_budget results 0 _ Hne).
      unfold total_length. lia.
    + destruct rest as [|line rest]; [done|]. lia.
    + destruct results as [|r results]; [done|].
      destruct (context_lines (r :: results) 0 max_context_length); done.
Qed.

(** ** An expired session is replaced *)

(** X21. When the session the index has for a user has expired,
    "get or create" does not revive it: provided the id drawn is new and
    the clock does not advance by more than the TTL between the creation
    and the lookup of the new session, it returns a new session of that
    user with no turns, to which the index now points, while the expired
    session stays in the store with its turns, deactivated. *)
Theorem expired_session_is_replaced
    (o : Oracle) (uid sid : string) (kw : option PyMap) (w : World)
    (s0 : UserSession) :
  user_to_session (session_manager w) !! uid = Some sid →
  sid ≠ "" →
  stored sid w = Some s0 →
  ¬ fresh_at (datetime_now o (ticks w)) s0 (session_manager w) →
  stored (uuid_stream o (draws w)) w = None →
  (datetime_now o (3 + ticks w) - datetime_now o (2 + ticks w)
     ≤ timedelta_minutes (session_timeout_minutes (session_manager w)))%Z →
  let r := get_or_create_session uid kw o w in
  ∃ s, r.1 = Some s
     ∧ session_id s = uuid_stream o (draws w)
     ∧ session_id s ≠ sid
     ∧ user_id s = uid
     ∧ conversation_history s = []
     ∧ is_active s = true
     ∧ stored (session_id s) r.2 = Some s
     ∧ user_to_session (session_manager r.2) !! uid = Some (session_id s)
     ∧ stored sid r.2 = Some (set_is_active false s0).
Proof.
  intros Hidx Hne Hs0 Hexp Hnew Hgap r. subst r.
  assert (uuid_stream o (draws w) ≠ sid) as Hdiff by (intros Heq; congruence).
  set (nid := uuid_stream o (draws w)) in *.
  set (w1 := after_readings 1 w).
  set (wc := (create_session uid kw o w1).2).
  assert (get_or_create_session uid kw o w = get_session nid o wc) as Hrun.
  { unfold get_or_create_session, bind at 1.
    unfold get_user_session, bind at 1, get_manager. rewrite Hidx.
    rewrite decide_False by done.
    rewrite (get_session_expired o sid w s0 Hs0 Hexp).
    unfold bind, wc. by rewrite create_session_eq. }
  assert (stored nid wc = Some (new_session o w1 uid kw)) as Hstored.
  { unfold stored, wc. rewrite create_session_eq. simpl. apply dict_get_set_eq. }
  assert (fresh_at (datetime_now o (ticks wc)) (new_session o w1 uid kw)
            (session_manager wc)) as Hfresh.
  { unfold fresh_at, wc, w1. rewrite create_session_eq. simpl. exact Hgap. }
  rewrite Hrun, (get_session_fresh o nid wc _ Hstored Hfresh). simpl.
  eexists. split_and!; try done.
  - unfold stored. simpl. apply dict_get_set_eq.
  - simpl. apply lookup_insert_eq.
  - unfold stored in Hs0 |- *. simpl.
    rewrite !dict_get_set_ne by done.
    rewrite Hidx, Hs0. apply dict_get_set_eq.
Qed.

(** X21, at a concrete input: alice comes back after more than an hour. *)
Lemma expired_session_is_replaced_witness :
  ∃ s, (get_or_create_session "alice" None example_oracle stale_world).1 = Some s
     ∧ session_id s = "session-1"
     ∧ conversation_history s = [].
Proof.
  destruct (expired_session_is_replaced example_oracle "alice" "session-0" None
              stale_world (mkSession "session-0" "alice" 0 60000000 [] ∅ true))
    as (s & Hs & Hid & _ & _ & Hh & _).
  - vm_compute. reflexivity.
  - discriminate.
  - vm_compute. reflexivity.
  - vm_compute. intros H. by apply H.
  - vm_compute. reflexivity.
  - vm_compute. discriminate.
  - exists s. split_and!; [exact Hs | exact Hid | exact Hh].
Defined.
